(** * mercury200_multipoll: framing, decoding and polling of Mercury-200 meters

    A shallow embedding of [mercury200_multipoll.py] and the properties its
    specification states about it.

    Layout: the Python primitives the program relies on ([Module Py]), the
    program's functions under their own names, the transport the program talks
    to, concrete scenarios, and then the lemmas and theorems. *)

From Stdlib.Strings Require Import String Ascii Byte.
From Stdlib Require Import ZArith List Bool Lia Floats Uint63.
From Stdlib Require Import Sorted Permutation.
Import ListNotations.
Local Open Scope Z_scope.

#[local] Set Warnings "-inexact-float".

(** ** Results of fallible code *)

(** The exceptions the program can meet.  [OSError] stands for the socket
    errors other than [socket.timeout]. *)
Inductive exn : Type :=
| ValueError
| StructError
| OSError.

(** A computation returns, raises, or ([Spin]) uses up the step budget the
    model gives to a [while] loop. *)
Inductive res (A : Type) : Type :=
| Ok (a : A)
| Raise (e : exn)
| Spin.

Arguments Ok {A} a.
Arguments Raise {A} e.
Arguments Spin {A}.

Definition bind {A B : Type} (m : res A) (k : A -> res B) : res B :=
  match m with
  | Ok a => k a
  | Raise e => Raise e
  | Spin => Spin
  end.

Notation "x <- m ;; k" := (bind m (fun x => k))
  (at level 61, m at next level, right associativity).

(** ** Python primitives *)

Module Py.

(** [bytes] objects. *)
Definition bytes : Type := list byte.

Definition byte_val (b : byte) : Z := Z.of_N (Byte.to_N b).

Definition byte_of_Z (z : Z) : byte :=
  match Byte.of_N (Z.to_N (z mod 256)) with
  | Some b => b
  | None => x00
  end.

Definition bytes_eqb (a b : bytes) : bool :=
  if list_eq_dec Byte.byte_eq_dec a b then true else false.

(** Truth value of a sequence: empty is false. *)
Definition truthy {A : Type} (s : list A) : bool :=
  match s with
  | [] => false
  | _ :: _ => true
  end.

(** Normalisation of one slice bound against a length. *)
Definition index (len i : Z) : Z :=
  if i <? 0 then Z.max (len + i) 0 else Z.min i len.

(** [s[lo:hi]]; [None] is an omitted bound. *)
Definition slice {A : Type} (s : list A) (lo hi : option Z) : list A :=
  let len := Z.of_nat (length s) in
  let a := match lo with None => 0 | Some i => index len i end in
  let b := match hi with None => len | Some j => index len j end in
  firstn (Z.to_nat (b - a)) (skipn (Z.to_nat a) s).

(** [struct.pack('<H', v)]: two bytes, low first; out of range is an error. *)
Definition struct_pack_H (v : Z) : res bytes :=
  if (0 <=? v) && (v <=? 65535)
  then Ok [byte_of_Z (Z.land v 255); byte_of_Z (Z.shiftr v 8)]
  else Raise StructError.

(** Upper-case hexadecimal digit of a value below 16. *)
Definition hex_digit (d : Z) : ascii :=
  if d <? 10 then ascii_of_nat (48 + Z.to_nat d)
  else ascii_of_nat (55 + Z.to_nat d).

Fixpoint hex_digits (fuel : nat) (n : Z) (acc : string) : string :=
  match fuel with
  | O => String (hex_digit (n mod 16)) acc
  | S fuel' =>
      if n <? 16 then String (hex_digit n) acc
      else hex_digits fuel' (n / 16) (String (hex_digit (n mod 16)) acc)
  end.

(** [format(n, 'X')] for [0 <= n]. *)
Definition format_X (n : Z) : string :=
  hex_digits (Z.to_nat (Z.log2 n)) n EmptyString.

Fixpoint zeros (k : nat) : string :=
  match k with
  | O => EmptyString
  | S k' => String "0" (zeros k')
  end.

(** [format(n, '08X')] for [0 <= n]: padded with zeros to at least 8 places. *)
Definition format_08X (n : Z) : string :=
  let s := format_X n in
  (zeros (8 - String.length s) ++ s)%string.

Definition hex_val (c : ascii) : option Z :=
  let n := Z.of_nat (nat_of_ascii c) in
  if (48 <=? n) && (n <=? 57) then Some (n - 48)
  else if (65 <=? n) && (n <=? 70) then Some (n - 55)
  else if (97 <=? n) && (n <=? 102) then Some (n - 87)
  else None.

(** [bytes.fromhex(s)] on a string without blanks: pairs of hexadecimal
    digits; anything else is a [ValueError]. *)
Fixpoint fromhex (s : string) : res bytes :=
  match s with
  | EmptyString => Ok []
  | String _ EmptyString => Raise ValueError
  | String a (String b rest) =>
      match hex_val a, hex_val b with
      | Some h, Some l =>
          r <- fromhex rest ;; Ok (byte_of_Z (16 * h + l) :: r)
      | _, _ => Raise ValueError
      end
  end.

Definition digit_val (c : ascii) : option Z :=
  let n := Z.of_nat (nat_of_ascii c) in
  if (48 <=? n) && (n <=? 57) then Some (n - 48) else None.

Fixpoint int_digits (s : string) (acc : Z) : res Z :=
  match s with
  | EmptyString => Ok acc
  | String c rest =>
      match digit_val c with
      | Some d => int_digits rest (10 * acc + d)
      | None => Raise ValueError
      end
  end.

(** [int(s)] on the strings this program passes to it, which hold no sign,
    blank or underscore: a non-empty run of ASCII decimal digits is its value,
    anything else (a letter [A]..[F] among them) is a [ValueError].  The cap
    newer interpreters put on the number of digits is left out; the program
    passes eight digits at most. *)
Definition int (s : string) : res Z :=
  match s with
  | EmptyString => Raise ValueError
  | _ => int_digits s 0
  end.

(** [s.lstrip('0')]. *)
Fixpoint lstrip0 (s : string) : string :=
  match s with
  | String "0" rest => lstrip0 rest
  | _ => s
  end.

(** [s or t] on strings. *)
Definition or_else (s t : string) : string :=
  match s with
  | EmptyString => t
  | _ => s
  end.

(** [''.join(...)]. *)
Definition join (l : list string) : string :=
  fold_right String.append EmptyString l.

Definition float_of_int (z : Z) : float := PrimFloat.of_uint63 (Uint63.of_Z z).

(** [a / b] on integers: a binary64 quotient.  The operands of the program are
    at most eight decimal digits and the constants 10 and 100, all converted
    exactly, so the quotient is the correctly rounded one Python returns. *)
Definition truediv (a b : Z) : float :=
  PrimFloat.div (float_of_int a) (float_of_int b).

End Py.

Import Py.

(** ** Settings *)

Definition TIMEOUT : float := 0.8%float.
Definition RETRY : nat := 1.

(** ** CRC-16 (Modbus RTU) *)

(** One pass of the inner loop:
    [crc = (crc >> 1) ^ 0xA001 if crc & 1 else crc >> 1]. *)
Definition crc_shift (crc : Z) : Z :=
  if negb (Z.land crc 1 =? 0)
  then Z.lxor (Z.shiftr crc 1) 0xA001
  else Z.shiftr crc 1.

(** One pass of the outer loop: [crc ^= ch] and eight shifts. *)
Definition crc_update (crc : Z) (ch : byte) : Z :=
  Nat.iter 8 crc_shift (Z.lxor crc (byte_val ch)).

Definition crc_register (buf : bytes) : Z :=
  fold_left crc_update buf 0xFFFF.

Definition crc16_modbus (buf : bytes) : res bytes :=
  struct_pack_H (crc_register buf).

(** The checksum as the specification words it: a 16-bit register whose low
    byte receives the input byte, shifted eight times, and written low byte
    first. *)
Module CrcSpec.

Definition xor_low_byte (reg : Z) (ch : byte) : Z :=
  256 * (reg / 256) + Z.lxor (reg mod 256) (byte_val ch).

Definition shift (reg : Z) : Z :=
  if Z.odd reg then Z.lxor (reg / 2) 0xA001 else reg / 2.

Definition step (reg : Z) (ch : byte) : Z :=
  shift (shift (shift (shift (shift (shift (shift (shift
    (xor_low_byte reg ch)))))))).

Fixpoint run (reg : Z) (buf : bytes) : Z :=
  match buf with
  | [] => reg
  | ch :: rest => run (step reg ch) rest
  end.

Definition register (buf : bytes) : Z := run 0xFFFF buf.

Definition little_endian (v : Z) : bytes :=
  [byte_of_Z (v mod 256); byte_of_Z (v / 256)].

Definition checksum (buf : bytes) : bytes := little_endian (register buf).

End CrcSpec.

(** The test the poll loop applies to a response:
    [crc16_modbus(r[:-2]) != r[-2:]]. *)
Definition crc_mismatch (r : bytes) : res bool :=
  c <- crc16_modbus (slice r None (Some (-2))) ;;
  Ok (negb (bytes_eqb c (slice r (Some (-2)) None))).

(** [not r or crc16_modbus(r[:-2]) != r[-2:]]. *)
Definition rejected (r : option bytes) : res bool :=
  match r with
  | None => Ok true
  | Some r' => if truthy r' then crc_mismatch r' else Ok true
  end.

(** ** BCD *)

(** [f'{byte>>4:X}{byte&0xF:X}']. *)
Definition nibbles (b : byte) : string :=
  (format_X (Z.shiftr (byte_val b) 4) ++ format_X (Z.land (byte_val b) 0xF))%string.

Definition bcd_to_int (b : bytes) : res Z :=
  Py.int (or_else (lstrip0 (join (map nibbles b))) "0").

(** The decimal reading of a byte string, for the statements: each byte gives
    its high nibble then its low nibble as a digit. *)
Module BcdSpec.

Definition hi (b : byte) : Z := byte_val b / 16.
Definition lo (b : byte) : Z := byte_val b mod 16.

Definition decimal (b : byte) : bool := (hi b <=? 9) && (lo b <=? 9).

Fixpoint digits (bs : bytes) : list Z :=
  match bs with
  | [] => []
  | b :: rest => hi b :: lo b :: digits rest
  end.

Definition number (ds : list Z) : Z :=
  fold_left (fun acc d => 10 * acc + d) ds 0.

Definition value (bs : bytes) : Z := number (digits bs).

(** A field of [w] bytes of which only [bs] arrived, the rest read as zero. *)
Definition zero_filled (w : nat) (bs : bytes) : bytes :=
  repeat x00 (w - length bs) ++ bs.

(** The number in the field of [w] bytes at offset [i] of a payload that may
    end before the field does. *)
Definition field (i w : nat) (p : bytes) : Z :=
  value (zero_filled w (firstn w (skipn i p))).

(** The characters of a run of digits. *)
Definition chars (ds : list Z) : string :=
  fold_right (fun d s => String (hex_digit d) s) EmptyString ds.

End BcdSpec.

(** ** Field decoders *)

Definition parse_63 (p : bytes) : res (float * float * Z) :=
  u <- bcd_to_int (slice p (Some 0) (Some 2)) ;;
  i <- bcd_to_int (slice p (Some 2) (Some 4)) ;;
  w <- bcd_to_int (slice p (Some 4) (Some 7)) ;;
  Ok (truediv u 10, truediv i 100, w).

Definition parse_27 (p : bytes) : res (float * float) :=
  t1 <- bcd_to_int (slice p (Some 0) (Some 4)) ;;
  t2 <- bcd_to_int (slice p (Some 4) (Some 8)) ;;
  Ok (truediv t1 100, truediv t2 100).

(** ** Transport

    The socket and the clock are the program's environment.  What they answer
    is fixed by the order of the calls: an [Env] gives the outcome of the
    n-th [sendall], the n-th reading of [time.time()] and the n-th [recv]. *)

Inductive send_outcome : Type :=
| SendOk
| SendError.                  (* [sendall] raised [OSError] *)

Inductive recv_outcome : Type :=
| RecvData (chunk : bytes)    (* the bytes returned; [[]] when the peer closed *)
| RecvTimeout                 (* [socket.timeout] *)
| RecvError.                  (* any other [OSError] *)

Record Env : Type := {
  on_send : nat -> send_outcome;
  on_clock : nat -> float;
  on_recv : nat -> recv_outcome
}.

(** A line of the table written to standard output; the number formats of the
    cells are left out.  [A] is the current, [I] in the source. *)
Inductive line : Type :=
| NoAnswer (port : Z) (serial : string)
| Partial (port : Z) (serial : string) (U A : float) (P : Z)
| Complete (port : Z) (serial : string) (U A : float) (P : Z) (T1 T2 : float).

(** What the run has done so far: calls made, frames handed to [sendall]
    (oldest first) and lines printed (oldest first). *)
Record World : Type := {
  sends : nat;
  ticks : nat;
  recvs : nat;
  wire : list bytes;
  stdout : list line
}.

Definition start : World :=
  {| sends := 0; ticks := 0; recvs := 0; wire := []; stdout := [] |}.

(** Effectful code: a result and the world after it. *)
Definition M (A : Type) : Type := World -> res A * World.

Definition ret {A : Type} (a : A) : M A := fun w => (Ok a, w).

Definition lift {A : Type} (r : res A) : M A := fun w => (r, w).

Definition bindM {A B : Type} (m : M A) (k : A -> M B) : M B :=
  fun w =>
    match m w with
    | (Ok a, w') => k a w'
    | (Raise e, w') => (Raise e, w')
    | (Spin, w') => (Spin, w')
    end.

Notation "x <~ m ;; k" := (bindM m (fun x => k))
  (at level 61, m at next level, right associativity).
Notation "m ;;; k" := (bindM m (fun _ => k))
  (at level 61, right associativity).

(** The world after one more [sendall], reading of the clock or [recv]. *)
Definition with_frame (w : World) (frame : bytes) : World :=
  {| sends := S (sends w); ticks := ticks w; recvs := recvs w;
     wire := wire w ++ [frame]; stdout := stdout w |}.

Definition with_tick (w : World) : World :=
  {| sends := sends w; ticks := S (ticks w); recvs := recvs w;
     wire := wire w; stdout := stdout w |}.

Definition with_read (w : World) : World :=
  {| sends := sends w; ticks := ticks w; recvs := S (recvs w);
     wire := wire w; stdout := stdout w |}.

(** The world with one more line on standard output. *)
Definition with_line (w : World) (l : line) : World :=
  {| sends := sends w; ticks := ticks w; recvs := recvs w;
     wire := wire w; stdout := stdout w ++ [l] |}.

Definition print (l : line) : M unit :=
  fun w => (Ok tt, with_line w l).

Section Exchange.

Variable env : Env.

Definition sendall (frame : bytes) : M send_outcome :=
  fun w => (Ok (on_send env (sends w)), with_frame w frame).

Definition time_time : M float :=
  fun w => (Ok (on_clock env (ticks w)), with_tick w).

Definition recv : M recv_outcome :=
  fun w => (Ok (on_recv env (recvs w)), with_read w).

(** The [while time.time() < deadline] loop of [send_frame].  [Some resp] is
    [return resp]; [None] is the loop left by [break] or by its condition.
    Every pass that goes round again has added a byte to [resp], so six passes
    are the most the loop makes; [budget] counts them. *)
Fixpoint recv_loop (budget : nat) (deadline : float) (resp : bytes)
  : M (option bytes) :=
  match budget with
  | O => lift Spin
  | S budget' =>
      now <~ time_time ;;
      if PrimFloat.ltb now deadline then
        got <~ recv ;;
        match got with
        | RecvTimeout => ret None
        | RecvError => lift (Raise OSError)
        | RecvData chunk =>
            if truthy chunk then
              let resp' := resp ++ chunk in
              if 6 <=? Z.of_nat (length resp') then ret (Some resp')
              else recv_loop budget' deadline resp'
            else ret None
        end
      else ret None
  end.

(** The [for _ in range(RETRY)] loop of [send_frame], [n] passes to go. *)
Fixpoint attempts (n : nat) (frame : bytes) : M (option bytes) :=
  match n with
  | O => ret None
  | S n' =>
      sent <~ sendall frame ;;
      match sent with
      | SendError => ret None
      | SendOk =>
          now <~ time_time ;;
          r <~ recv_loop 6 (PrimFloat.add now TIMEOUT) [] ;;
          match r with
          | Some resp => ret (Some resp)
          | None => attempts n' frame
          end
      end
  end.

(** The first two lines of [send_frame]. *)
Definition build_frame (addr_hex cmd_hex : string) : res bytes :=
  raw <- fromhex (addr_hex ++ cmd_hex)%string ;;
  crc <- crc16_modbus raw ;;
  Ok (raw ++ crc).

(** [send_frame], with the module constant [RETRY] as the argument [retry]. *)
Definition send_frame (retry : nat) (addr_hex cmd_hex : string)
  : M (option bytes) :=
  frame <~ lift (build_frame addr_hex cmd_hex) ;;
  attempts retry frame.

(** The bytes of a response that has passed [rejected]. *)
Definition bytes_of (r : option bytes) : bytes :=
  match r with
  | Some b => b
  | None => []
  end.

(** [r[5:-2]]. *)
Definition payload (r : option bytes) : bytes :=
  slice (bytes_of r) (Some 5) (Some (-2)).

(** The body of [for serial in serials]. *)
Definition poll_serial (retry : nat) (port : Z) (serial : string) : M unit :=
  n <~ lift (Py.int serial) ;;
  let addr_hex := format_08X n in
  r63 <~ send_frame retry addr_hex "63" ;;
  bad63 <~ lift (rejected r63) ;;
  if (bad63 : bool) then print (NoAnswer port serial)
  else
    m63 <~ lift (parse_63 (payload r63)) ;;
    let '(U, A, P) := m63 in
    r27 <~ send_frame retry addr_hex "27" ;;
    bad27 <~ lift (rejected r27) ;;
    if (bad27 : bool) then print (Partial port serial U A P)
    else
      m27 <~ lift (parse_27 (payload r27)) ;;
      let '(T1, T2) := m27 in
      print (Complete port serial U A P T1 T2).

Fixpoint poll_serials (retry : nat) (port : Z) (serials : list string)
  : M unit :=
  match serials with
  | [] => ret tt
  | serial :: rest =>
      poll_serial retry port serial ;;; poll_serials retry port rest
  end.

(** The bytes the reads [i], ..., [i + m - 1] delivered. *)
Definition delivered (i m : nat) : bytes :=
  concat (map (fun j => match on_recv env j with
                        | RecvData chunk => chunk
                        | _ => []
                        end) (seq i m)).

End Exchange.

(** ** Scenarios *)

Module Scenario.

(** A clock that gains a tenth of a second at each reading. *)
Definition clock (n : nat) : float :=
  PrimFloat.div (float_of_int (Z.of_nat n)) 10%float.

(** A response: the echoed address and command, a payload, the checksum. *)
Definition reply (echo body : bytes) : bytes :=
  (echo ++ body) ++ CrcSpec.checksum (echo ++ body).

Definition echo63 : bytes := [x00; x08; x60; x6d; x63].
Definition echo27 : bytes := [x00; x08; x60; x6d; x27].
Definition next63 : bytes := [x00; x08; x60; x6e; x63].
Definition next27 : bytes := [x00; x08; x60; x6e; x27].

Definition body63 : bytes := [x02; x30; x01; x00; x00; x05; x00].
Definition body27 : bytes := [x00; x01; x23; x45; x00; x06; x78; x90].

(** The first meter answers the measurement read and is silent on the energy
    read; the second answers both. *)
Definition silent_on_energy : Env :=
  {| on_send := fun _ => SendOk;
     on_clock := clock;
     on_recv := fun n =>
       match n with
       | 0%nat => RecvData (reply echo63 body63)
       | 1%nat => RecvTimeout
       | 2%nat => RecvData (reply next63 body63)
       | 3%nat => RecvData (reply next27 body27)
       | _ => RecvTimeout
       end |}.

(** No meter answers. *)
Definition silent : Env :=
  {| on_send := fun _ => SendOk;
     on_clock := clock;
     on_recv := fun _ => RecvTimeout |}.



(** The measurement read is answered by the echo and a checksum alone, the
    energy read not at all. *)
Definition empty_payload : Env :=
  {| on_send := fun _ => SendOk;
     on_clock := clock;
     on_recv := fun n =>
       match n with
       | 0%nat => RecvData (reply echo63 [])
       | _ => RecvTimeout
       end |}.

(** Both reads are answered with payloads cut short. *)
Definition short_payloads : Env :=
  {| on_send := fun _ => SendOk;
     on_clock := clock;
     on_recv := fun n =>
       match n with
       | 0%nat => RecvData (reply echo63 [x02; x30; x01])
       | 1%nat => RecvData (reply echo27 [x00; x01; x23; x45; x06])
       | _ => RecvTimeout
       end |}.

(** The first meter's measurement payload holds the nibbles [A]; the second
    meter is in order. *)
Definition bad_nibble : Env :=
  {| on_send := fun _ => SendOk;
     on_clock := clock;
     on_recv := fun n =>
       match n with
       | 0%nat => RecvData (reply echo63 [x02; xaa; x01; x00; x00; x05; x00])
       | 1%nat => RecvData (reply next63 body63)
       | 2%nat => RecvData (reply next27 body27)
       | _ => RecvTimeout
       end |}.

(** The connection is reset while the first answer is awaited. *)
Definition reset_by_peer : Env :=
  {| on_send := fun _ => SendOk;
     on_clock := clock;
     on_recv := fun _ => RecvError |}.

End Scenario.

(** ** Text

    What the plan loader does to the text of [serials.txt], on ASCII text.
    [read_text] has already turned [\r\n] and [\r] into [\n]; [splitlines]
    treats all three alike, so the raw text gives the same lines. *)

Module Text.

(** The blanks of [str.strip] and [str.split]: tab, line feed, vertical tab,
    form feed, carriage return, the four separators 28..31 and the space. *)
Definition is_space (c : ascii) : bool :=
  let n := nat_of_ascii c in
  (((9 <=? n) && (n <=? 13)) || ((28 <=? n) && (n <=? 32)))%nat.



Fixpoint lstrip (s : string) : string :=
  match s with
  | EmptyString => EmptyString
  | String c rest => if is_space c then lstrip rest else s
  end.

Fixpoint rstrip (s : string) : string :=
  match s with
  | EmptyString => EmptyString
  | String c rest =>
      match rstrip rest with
      | EmptyString => if is_space c then EmptyString else String c EmptyString
      | r => String c r
      end
  end.

(** [s.strip()]. *)
Definition strip (s : string) : string := rstrip (lstrip s).

(** [s.split()]: the runs of characters that are not blanks. *)
Fixpoint split (s : string) : list string :=
  match s with
  | EmptyString => []
  | String c rest =>
      if is_space c then split rest
      else
        match rest with
        | EmptyString => [String c EmptyString]
        | String d _ =>
            if is_space d then String c EmptyString :: split rest
            else
              match split rest with
              | [] => [String c EmptyString]
              | t :: ts => String c t :: ts
              end
        end
  end.


(** [s.isdigit()]. *)
Fixpoint all_digits (s : string) : bool :=
  match s with
  | EmptyString => true
  | String c rest =>
      match digit_val c with
      | Some _ => all_digits rest
      | None => false
      end
  end.

Definition isdigit (s : string) : bool :=
  match s with
  | EmptyString => false
  | _ => all_digits s
  end.

(** The digits of an integer literal, single underscores allowed between
    them; [after_digit] tells whether the last character was a digit. *)
Fixpoint literal (s : string) (acc : Z) (after_digit : bool) : option Z :=
  match s with
  | EmptyString => if after_digit then Some acc else None
  | String c rest =>
      match digit_val c with
      | Some d => literal rest (10 * acc + d) true
      | None =>
          if Ascii.eqb c "_" && after_digit then literal rest acc false
          else None
      end
  end.

(** [int(s)] in full for ASCII text: blanks around, a sign, digits with
    single underscores between them.  [None] is [ValueError]. *)
Definition int (s : string) : option Z :=
  match strip s with
  | String "+"%char r => literal r 0 false
  | String "-"%char r => option_map Z.opp (literal r 0 false)
  | r => literal r 0 false
  end.

End Text.

(** ** The plan *)

(** A [dict] from port to serials, in the order the keys were first set. *)
Definition Plan : Type := list (Z * list string).


Fixpoint dict_get (plan : Plan) (port : Z) : option (list string) :=
  match plan with
  | [] => None
  | (p, s) :: rest => if p =? port then Some s else dict_get rest port
  end.

(** [s.isdigit() and len(s) == 6]. *)
Definition six_digits (s : string) : bool :=
  Text.isdigit s && (String.length s =? 6)%nat.









(** ** The run *)


(** The port and serial a line is about. *)
Definition line_key (l : line) : Z * string :=
  match l with
  | NoAnswer port serial => (port, serial)
  | Partial port serial _ _ _ => (port, serial)
  | Complete port serial _ _ _ _ _ => (port, serial)
  end.







(** A frame is the measurement or the energy request to one of [serials]. *)
Definition is_request (serials : list string) (f : bytes) : Prop :=
  exists (serial : string) (n : Z),
    In serial serials /\ Py.int serial = Ok n
    /\ (build_frame (format_08X n) "63" = Ok f
        \/ build_frame (format_08X n) "27" = Ok f).

(** ** Fixed-width hexadecimal *)

(** The last [k] hexadecimal digits of [n], most significant first, in front
    of [acc]: what [format(n, '0kX')] writes when [n] has no more than [k]
    digits. *)
Fixpoint hex_fixed (k : nat) (n : Z) (acc : string) : string :=
  match k with
  | O => acc
  | S k' => hex_fixed k' (n / 16) (String (hex_digit (n mod 16)) acc)
  end.

(** ** Ranges *)

(** A value that fits the 16-bit register. *)
Definition word16 (v : Z) : Prop := 0 <= v < 65536.

(** A decimal digit; a nibble. *)
Definition decimal_digit (d : Z) : Prop := 0 <= d <= 9.
Definition hex_nibble (d : Z) : Prop := 0 <= d <= 15.

(** * Properties *)

(** ** Bytes and slices *)

Lemma byte_val_range (b : byte) : 0 <= byte_val b < 256.
Proof.
  unfold byte_val. pose proof (Byte.to_N_bounded b). lia.
Qed.

Lemma byte_val_of_Z (z : Z) : byte_val (byte_of_Z z) = z mod 256.
Proof.
  unfold byte_of_Z, byte_val.
  pose proof (Z.mod_pos_bound z 256 ltac:(lia)) as R.
  destruct (Byte.of_N (Z.to_N (z mod 256))) as [b|] eqn:E.
  - apply Byte.to_of_N in E. rewrite E. lia.
  - apply Byte.of_N_None_iff in E. lia.
Qed.

Lemma bytes_eqb_refl (a : bytes) : bytes_eqb a a = true.
Proof.
  unfold bytes_eqb. destruct (list_eq_dec byte_eq_dec a a); congruence.
Qed.

(** [s[:-k]] and [s[-k:]] split a sequence at [k] from its end. *)
Lemma slice_drop_tail {A : Type} (s t : list A) :
  t <> [] ->
  slice (s ++ t) None (Some (- Z.of_nat (length t))) = s.
Proof.
  intros Ht. unfold slice, index. rewrite length_app, Nat2Z.inj_add.
  assert (0 < length t)%nat by (destruct t; [congruence | simpl; lia]).
  replace (- Z.of_nat (length t) <? 0) with true by (symmetry; apply Z.ltb_lt; lia).
  rewrite Z.max_l by lia. simpl skipn.
  replace (Z.to_nat (_ - 0)) with (length s) by lia.
  rewrite firstn_app, Nat.sub_diag, firstn_all. simpl. apply app_nil_r.
Qed.

Lemma slice_take_tail {A : Type} (s t : list A) :
  t <> [] ->
  slice (s ++ t) (Some (- Z.of_nat (length t))) None = t.
Proof.
  intros Ht. unfold slice, index. rewrite length_app, Nat2Z.inj_add.
  assert (0 < length t)%nat by (destruct t; [congruence | simpl; lia]).
  replace (- Z.of_nat (length t) <? 0) with true by (symmetry; apply Z.ltb_lt; lia).
  rewrite Z.max_l by lia.
  replace (Z.to_nat (_ + _ + _)) with (length s) by lia.
  rewrite skipn_app, Nat.sub_diag, skipn_all. simpl.
  apply firstn_all2. lia.
Qed.

(** [s[i:j]] for bounds inside the sequence. *)
Lemma slice_inside {A : Type} (s : list A) (i j : nat) :
  (i <= j)%nat ->
  slice s (Some (Z.of_nat i)) (Some (Z.of_nat j)) = firstn (j - i) (skipn i s).
Proof.
  intros Hij. unfold slice, index.
  replace (Z.of_nat i <? 0) with false by (symmetry; apply Z.ltb_ge; lia).
  replace (Z.of_nat j <? 0) with false by (symmetry; apply Z.ltb_ge; lia).
  destruct (Nat.le_gt_cases (length s) i) as [L | L].
  - rewrite !Z.min_r by lia. rewrite Z.sub_diag. simpl.
    rewrite (skipn_all2 s) by lia. rewrite firstn_nil. reflexivity.
  - rewrite (Z.min_l (Z.of_nat i)) by lia. rewrite Nat2Z.id.
    destruct (Nat.le_gt_cases (length s) j) as [J | J].
    + rewrite Z.min_r by lia.
      rewrite !firstn_all2; try reflexivity; rewrite length_skipn; lia.
    + rewrite Z.min_l by lia. f_equal. lia.
Qed.

(** ** The checksum *)

Lemma log2_below (n a : Z) : 0 < n -> 0 <= a < 2 ^ n -> Z.log2 a < n.
Proof.
  intros Hn Ha. destruct (Z.eq_dec a 0) as [E | E].
  - rewrite E. simpl. exact Hn.
  - apply Z.log2_lt_pow2; lia.
Qed.

Lemma lxor_below (n a b : Z) :
  0 < n -> 0 <= a < 2 ^ n -> 0 <= b < 2 ^ n -> 0 <= Z.lxor a b < 2 ^ n.
Proof.
  intros Hn Ha Hb.
  assert (0 <= Z.lxor a b) as Hx by (apply Z.lxor_nonneg; lia).
  split; [exact Hx |].
  destruct (Z.eq_dec (Z.lxor a b) 0) as [E | E].
  - rewrite E. apply Z.pow_pos_nonneg; lia.
  - apply Z.log2_lt_pow2; [lia |].
    pose proof (Z.log2_lxor a b ltac:(lia) ltac:(lia)) as L.
    pose proof (log2_below n a Hn Ha).
    pose proof (log2_below n b Hn Hb).
    lia.
Qed.

Lemma crc_shift_spec (v : Z) : 0 <= v -> crc_shift v = CrcSpec.shift v.
Proof.
  intros Hv. unfold crc_shift, CrcSpec.shift.
  change 1 with (Z.ones 1) at 1. rewrite Z.land_ones by lia.
  rewrite !Z.shiftr_div_pow2 by lia. change (2 ^ 1) with 2.
  rewrite <- Z.bit0_odd. pose proof (Z.bit0_mod v) as B.
  destruct (Z.testbit v 0); simpl in B; rewrite <- B; reflexivity.
Qed.

Lemma shift_word16 (v : Z) : word16 v -> word16 (CrcSpec.shift v).
Proof.
  unfold word16, CrcSpec.shift. intros Hv.
  assert (0 <= v / 2 < 32768) as Hh.
  { split; [apply Z.div_pos; lia | apply Z.div_lt_upper_bound; lia]. }
  destruct (Z.odd v).
  - change 65536 with (2 ^ 16). apply lxor_below; simpl; lia.
  - lia.
Qed.

Lemma lxor_mod_pow2 (a b n : Z) :
  0 <= n -> Z.lxor a b mod 2 ^ n = Z.lxor (a mod 2 ^ n) (b mod 2 ^ n).
Proof.
  intros Hn. apply Z.bits_inj'. intros m Hm.
  rewrite Z.lxor_spec. destruct (Z.lt_ge_cases m n) as [L | L].
  - rewrite !Z.mod_pow2_bits_low by lia. apply Z.lxor_spec.
  - rewrite !Z.mod_pow2_bits_high by lia. reflexivity.
Qed.

Lemma xor_low_byte_spec (v : Z) (ch : byte) :
  0 <= v -> Z.lxor v (byte_val ch) = CrcSpec.xor_low_byte v ch.
Proof.
  intros Hv. unfold CrcSpec.xor_low_byte.
  pose proof (byte_val_range ch) as Hc.
  set (c := byte_val ch) in *.
  rewrite (Z.div_mod (Z.lxor v c) 256) at 1 by lia.
  f_equal.
  - f_equal. change 256 with (2 ^ 8).
    rewrite <- !Z.shiftr_div_pow2 by lia.
    rewrite Z.shiftr_lxor. rewrite (Z.shiftr_div_pow2 c) by lia.
    rewrite (Z.div_small c) by (simpl; lia). apply Z.lxor_0_r.
  - change 256 with (2 ^ 8). rewrite lxor_mod_pow2 by lia.
    rewrite (Z.mod_small c) by (simpl; lia). reflexivity.
Qed.

Lemma xor_low_byte_word16 (v : Z) (ch : byte) :
  word16 v -> word16 (CrcSpec.xor_low_byte v ch).
Proof.
  intros Hv. rewrite <- xor_low_byte_spec by (unfold word16 in Hv; lia).
  unfold word16 in *. change 65536 with (2 ^ 16).
  pose proof (byte_val_range ch).
  apply lxor_below; simpl; lia.
Qed.

Lemma step_word16 (v : Z) (ch : byte) : word16 v -> word16 (CrcSpec.step v ch).
Proof.
  intros Hv. unfold CrcSpec.step.
  do 8 apply shift_word16. apply xor_low_byte_word16, Hv.
Qed.

Lemma crc_update_spec (v : Z) (ch : byte) :
  word16 v -> crc_update v ch = CrcSpec.step v ch.
Proof.
  intros Hv. unfold crc_update, CrcSpec.step.
  rewrite xor_low_byte_spec by (unfold word16 in Hv; lia).
  pose proof (xor_low_byte_word16 v ch Hv) as H0.
  set (x := CrcSpec.xor_low_byte v ch) in *. clearbody x.
  simpl Nat.iter.
  repeat match goal with
  | |- context [crc_shift ?y] =>
      lazymatch y with
      | context [crc_shift _] => fail
      | _ => rewrite (crc_shift_spec y)
      end
  end; try reflexivity;
  repeat match goal with
  | |- 0 <= CrcSpec.shift ?y =>
      assert (word16 (CrcSpec.shift y)) as W
        by (repeat apply shift_word16; exact H0);
      unfold word16 in W; lia
  | |- 0 <= x => unfold word16 in H0; lia
  end.
Qed.

Lemma fold_crc_update_spec (buf : bytes) (v : Z) :
  word16 v ->
  fold_left crc_update buf v = CrcSpec.run v buf /\ word16 (CrcSpec.run v buf).
Proof.
  revert v. induction buf as [| ch rest IH]; intros v Hv; simpl.
  - split; [reflexivity | exact Hv].
  - rewrite crc_update_spec by exact Hv.
    apply IH, step_word16, Hv.
Qed.

Lemma crc_register_spec (buf : bytes) :
  crc_register buf = CrcSpec.register buf /\ word16 (CrcSpec.register buf).
Proof.
  apply fold_crc_update_spec. unfold word16. lia.
Qed.

Lemma struct_pack_H_word16 (v : Z) :
  word16 v -> struct_pack_H v = Ok (CrcSpec.little_endian v).
Proof.
  unfold word16, struct_pack_H, CrcSpec.little_endian. intros Hv.
  replace ((0 <=? v) && (v <=? 65535)) with true
    by (symmetry; apply andb_true_iff; split; apply Z.leb_le; lia).
  change 255 with (Z.ones 8). rewrite Z.land_ones by lia.
  rewrite Z.shiftr_div_pow2 by lia. reflexivity.
Qed.

Lemma crc16_modbus_checksum (buf : bytes) :
  crc16_modbus buf = Ok (CrcSpec.checksum buf).
Proof.
  unfold crc16_modbus, CrcSpec.checksum.
  destruct (crc_register_spec buf) as [-> W].
  apply struct_pack_H_word16, W.
Qed.

Lemma accepted_own_checksum (b : bytes) :
  rejected (Some (b ++ CrcSpec.checksum b)) = Ok false.
Proof.
  unfold rejected.
  assert (truthy (b ++ CrcSpec.checksum b) = true) as ->
    by (destruct b; reflexivity).
  unfold crc_mismatch.
  change (-2) with (- Z.of_nat (length (CrcSpec.checksum b))).
  rewrite slice_drop_tail, slice_take_tail by discriminate.
  rewrite crc16_modbus_checksum. simpl. rewrite bytes_eqb_refl. reflexivity.
Qed.

(** C1.  For every byte sequence, the empty one included, [crc16_modbus]
    returns (it never raises) the two bytes, low byte first, of the register
    the specification describes: started at 0xFFFF; for each byte in order
    that byte is XOR-ed into the low byte, then eight times the register is
    shifted right by one and, when the bit shifted out was set, XOR-ed with
    0xA001.  The register stays within 16 bits, so the two bytes hold it
    whole.  Being a function of its argument alone, the checksum is
    deterministic and without effect. *)
Theorem crc16_modbus_is_specified_checksum :
  forall buf : bytes,
    crc16_modbus buf = Ok (CrcSpec.checksum buf)
    /\ 0 <= CrcSpec.register buf < 65536
    /\ (exists lo hi : byte,
          CrcSpec.checksum buf = [lo; hi]
          /\ byte_val lo + 256 * byte_val hi = CrcSpec.register buf)
    /\ CrcSpec.register [] = 0xFFFF.
Proof.
  intros buf. split; [apply crc16_modbus_checksum |].
  destruct (crc_register_spec buf) as [_ W].
  split; [exact W |]. split; [| reflexivity].
  unfold CrcSpec.checksum, CrcSpec.little_endian.
  set (v := CrcSpec.register buf) in *. unfold word16 in W.
  exists (byte_of_Z (v mod 256)), (byte_of_Z (v / 256)).
  split; [reflexivity |]. rewrite !byte_val_of_Z.
  rewrite Z.mod_mod by lia.
  rewrite (Z.mod_small (v / 256))
    by (split; [apply Z.div_pos; lia | apply Z.div_lt_upper_bound; lia]).
  pose proof (Z.div_mod v 256 ltac:(lia)). lia.
Qed.

(** C2.  For every byte sequence [b], [crc16_modbus b] returns two bytes [c]
    and the frame [b ++ c] passes the test the poll loop applies to a
    response: the checksum of all its bytes but the last two equals those two
    bytes.  The request built for serial 548973 and command 0x63 is
    [00 08 60 6D 63 4A C7] and passes it. *)
Theorem frame_with_own_checksum_validates :
  (forall b : bytes,
      exists c : bytes,
        crc16_modbus b = Ok c
        /\ length c = 2%nat
        /\ crc_mismatch (b ++ c) = Ok false
        /\ rejected (Some (b ++ c)) = Ok false)
  /\ (exists frame : bytes,
        (n <- Py.int "548973" ;; build_frame (format_08X n) "63") = Ok frame
        /\ frame = [x00; x08; x60; x6d; x63; x4a; xc7]
        /\ rejected (Some frame) = Ok false).
Proof.
  split.
  - intros b. exists (CrcSpec.checksum b).
    pose proof (accepted_own_checksum b) as H.
    split; [apply crc16_modbus_checksum |].
    split; [reflexivity |]. split; [| exact H].
    unfold rejected in H.
    destruct (truthy (b ++ CrcSpec.checksum b)) eqn:T; [exact H |].
    destruct b; discriminate.
  - eexists. split; [vm_compute; reflexivity |].
    split; [reflexivity | vm_compute; reflexivity].
Qed.

(** ** BCD *)

Lemma nibbles_chars (b : byte) :
  nibbles b = BcdSpec.chars [BcdSpec.hi b; BcdSpec.lo b].
Proof.
  destruct b; reflexivity.
Qed.

Lemma nibble_range (b : byte) :
  0 <= BcdSpec.hi b < 16 /\ 0 <= BcdSpec.lo b < 16.
Proof.
  unfold BcdSpec.hi, BcdSpec.lo. pose proof (byte_val_range b) as R.
  split.
  - split; [apply Z.div_pos; lia | apply Z.div_lt_upper_bound; lia].
  - apply Z.mod_pos_bound. lia.
Qed.

Lemma join_nibbles (bs : bytes) :
  join (map nibbles bs) = BcdSpec.chars (BcdSpec.digits bs).
Proof.
  induction bs as [| b rest IH]; [reflexivity |].
  change (join (map nibbles (b :: rest)))
    with (nibbles b ++ join (map nibbles rest))%string.
  rewrite IH, nibbles_chars. reflexivity.
Qed.

Ltac each_digit d H :=
  let E := fresh in
  assert (d = 0 \/ d = 1 \/ d = 2 \/ d = 3 \/ d = 4 \/ d = 5 \/ d = 6 \/ d = 7
          \/ d = 8 \/ d = 9 \/ d = 10 \/ d = 11 \/ d = 12 \/ d = 13 \/ d = 14
          \/ d = 15) as E by (clear - H; unfold decimal_digit, hex_nibble in H; lia);
  repeat (destruct E as [E | E]; [subst d |]); [.. | subst d].

Lemma digit_val_hex_digit (d : Z) :
  hex_nibble d ->
  digit_val (hex_digit d) = if d <=? 9 then Some d else None.
Proof.
  intros H. each_digit d H; reflexivity.
Qed.

Lemma decimal_digits (bs : bytes) :
  forallb BcdSpec.decimal bs = true -> Forall decimal_digit (BcdSpec.digits bs).
Proof.
  induction bs as [| b rest IH]; simpl; intros H; [constructor |].
  apply andb_true_iff in H. destruct H as [Hb Hr].
  unfold BcdSpec.decimal in Hb. apply andb_true_iff in Hb.
  destruct Hb as [Hh Hl]. apply Z.leb_le in Hh, Hl.
  pose proof (nibble_range b) as R.
  repeat constructor; try lia. apply IH, Hr.
Qed.

Lemma hex_digits_of_bytes (bs : bytes) : Forall hex_nibble (BcdSpec.digits bs).
Proof.
  induction bs as [| b rest IH]; simpl; [constructor |].
  pose proof (nibble_range b) as R.
  repeat constructor; try lia. exact IH.
Qed.

Lemma int_digits_chars (ds : list Z) (acc : Z) :
  Forall decimal_digit ds ->
  int_digits (BcdSpec.chars ds) acc = Ok (fold_left (fun a d => 10 * a + d) ds acc).
Proof.
  intros H. revert acc. induction H as [| d rest Hd Hr IH]; intros acc; simpl.
  - reflexivity.
  - rewrite digit_val_hex_digit by (unfold decimal_digit, hex_nibble in *; lia).
    replace (d <=? 9) with true
      by (symmetry; apply Z.leb_le; unfold decimal_digit in Hd; lia).
    apply IH.
Qed.

(** The characters of digits, zeros stripped, read back as the number. *)
Lemma int_lstrip0_chars (ds : list Z) :
  Forall decimal_digit ds ->
  Py.int (or_else (lstrip0 (BcdSpec.chars ds)) "0") = Ok (BcdSpec.number ds).
Proof.
  intros H. induction H as [| d rest Hd Hr IH].
  - reflexivity.
  - destruct (Z.eq_dec d 0) as [-> | Hnz].
    + simpl. exact IH.
    + assert (lstrip0 (BcdSpec.chars (d :: rest)) = BcdSpec.chars (d :: rest)) as ->.
      { each_digit d Hd; try (exfalso; unfold decimal_digit in Hd; lia);
          try congruence; reflexivity. }
      unfold BcdSpec.number.
      rewrite <- (int_digits_chars (d :: rest) 0) by (constructor; assumption).
      reflexivity.
Qed.

Lemma bcd_to_int_value (bs : bytes) :
  forallb BcdSpec.decimal bs = true -> bcd_to_int bs = Ok (BcdSpec.value bs).
Proof.
  intros H. unfold bcd_to_int, BcdSpec.value. rewrite join_nibbles.
  apply int_lstrip0_chars, decimal_digits, H.
Qed.

(** Leading zero digits do not change the number. *)
Lemma number_zeros (k : nat) (ds : list Z) :
  BcdSpec.number (repeat 0 k ++ ds) = BcdSpec.number ds.
Proof.
  induction k as [| k IH]; simpl; [reflexivity | exact IH].
Qed.

Lemma digits_app (a b : bytes) :
  BcdSpec.digits (a ++ b) = BcdSpec.digits a ++ BcdSpec.digits b.
Proof.
  induction a as [| x a IH]; simpl; [reflexivity | rewrite IH; reflexivity].
Qed.

Lemma digits_zero_bytes (k : nat) :
  BcdSpec.digits (repeat x00 k) = repeat 0 (2 * k).
Proof.
  induction k as [| k IH]; simpl; [reflexivity |].
  rewrite IH. replace (k + S (k + 0))%nat with (S (2 * k)) by lia.
  reflexivity.
Qed.


Lemma value_zero_filled (w : nat) (bs : bytes) :
  BcdSpec.value (BcdSpec.zero_filled w bs) = BcdSpec.value bs.
Proof.
  unfold BcdSpec.value, BcdSpec.zero_filled.
  rewrite digits_app, digits_zero_bytes. apply number_zeros.
Qed.


Lemma decimal_firstn (k : nat) (bs : bytes) :
  forallb BcdSpec.decimal bs = true ->
  forallb BcdSpec.decimal (firstn k bs) = true.
Proof.
  revert bs. induction k as [| k IH]; intros [| b rest] H; simpl; try reflexivity.
  simpl in H. apply andb_true_iff in H. destruct H as [Hb Hr].
  rewrite Hb. apply IH, Hr.
Qed.

Lemma decimal_skipn (k : nat) (bs : bytes) :
  forallb BcdSpec.decimal bs = true ->
  forallb BcdSpec.decimal (skipn k bs) = true.
Proof.
  revert bs. induction k as [| k IH]; intros [| b rest] H; simpl; try reflexivity.
  - exact H.
  - simpl in H. apply andb_true_iff in H. apply IH, H.
Qed.



(** ** Field decoders *)

Lemma parse_63_fields (p : bytes) :
  parse_63 p =
    (u <- bcd_to_int (firstn 2 p) ;;
     i <- bcd_to_int (firstn 2 (skipn 2 p)) ;;
     w <- bcd_to_int (firstn 3 (skipn 4 p)) ;;
     Ok (truediv u 10, truediv i 100, w)).
Proof.
  unfold parse_63.
  change (slice p (Some 0) (Some 2))
    with (slice p (Some (Z.of_nat 0)) (Some (Z.of_nat 2))).
  change (slice p (Some 2) (Some 4))
    with (slice p (Some (Z.of_nat 2)) (Some (Z.of_nat 4))).
  change (slice p (Some 4) (Some 7))
    with (slice p (Some (Z.of_nat 4)) (Some (Z.of_nat 7))).
  rewrite !slice_inside by lia. reflexivity.
Qed.

Lemma parse_27_fields (p : bytes) :
  parse_27 p =
    (t1 <- bcd_to_int (firstn 4 p) ;;
     t2 <- bcd_to_int (firstn 4 (skipn 4 p)) ;;
     Ok (truediv t1 100, truediv t2 100)).
Proof.
  unfold parse_27.
  change (slice p (Some 0) (Some 4))
    with (slice p (Some (Z.of_nat 0)) (Some (Z.of_nat 4))).
  change (slice p (Some 4) (Some 8))
    with (slice p (Some (Z.of_nat 4)) (Some (Z.of_nat 8))).
  rewrite !slice_inside by lia. reflexivity.
Qed.

Lemma bcd_to_int_field (i w : nat) (p : bytes) :
  forallb BcdSpec.decimal p = true ->
  bcd_to_int (firstn w (skipn i p)) = Ok (BcdSpec.field i w p).
Proof.
  intros H. unfold BcdSpec.field. rewrite value_zero_filled.
  apply bcd_to_int_value, decimal_firstn, decimal_skipn, H.
Qed.

Lemma parse_63_decimal (p : bytes) :
  forallb BcdSpec.decimal p = true ->
  parse_63 p = Ok (truediv (BcdSpec.field 0 2 p) 10,
                   truediv (BcdSpec.field 2 2 p) 100,
                   BcdSpec.field 4 3 p).
Proof.
  intros H. rewrite parse_63_fields.
  change (firstn 2 p) with (firstn 2 (skipn 0 p)).
  rewrite !bcd_to_int_field by exact H. reflexivity.
Qed.

Lemma parse_27_decimal (p : bytes) :
  forallb BcdSpec.decimal p = true ->
  parse_27 p = Ok (truediv (BcdSpec.field 0 4 p) 100,
                   truediv (BcdSpec.field 4 4 p) 100).
Proof.
  intros H. rewrite parse_27_fields.
  change (firstn 4 p) with (firstn 4 (skipn 0 p)).
  rewrite !bcd_to_int_field by exact H. reflexivity.
Qed.

Ltac decimal_bytes :=
  cbn [forallb];
  repeat match goal with
         | Hd : BcdSpec.decimal _ = true |- _ => rewrite Hd; clear Hd
         end;
  reflexivity.

(** C4.  On a payload of at least seven bytes [parse_63] returns the BCD
    number of bytes 0-1 divided by 10, that of bytes 2-3 divided by 100 and
    that of bytes 4-6 as it is; on a payload of at least eight bytes
    [parse_27] returns the BCD numbers of bytes 0-3 and of bytes 4-7, each
    divided by 100.  A byte that is not BCD makes the decoder raise what
    [bcd_to_int] raises.  The payload [02 30 01 00 00 05 00] gives 23.0, 1.00
    and 500; the payload [00 01 23 45 00 06 78 90] gives 123.45 and 678.90. *)
Theorem field_decoders_read_fixed_layout :
  forall (b0 b1 b2 b3 b4 b5 b6 b7 : byte) (more : bytes),
    parse_63 (b0 :: b1 :: b2 :: b3 :: b4 :: b5 :: b6 :: more) =
      (u <- bcd_to_int [b0; b1] ;;
       i <- bcd_to_int [b2; b3] ;;
       w <- bcd_to_int [b4; b5; b6] ;;
       Ok (truediv u 10, truediv i 100, w))
    /\ parse_27 (b0 :: b1 :: b2 :: b3 :: b4 :: b5 :: b6 :: b7 :: more) =
      (t1 <- bcd_to_int [b0; b1; b2; b3] ;;
       t2 <- bcd_to_int [b4; b5; b6; b7] ;;
       Ok (truediv t1 100, truediv t2 100))
    /\ (forallb BcdSpec.decimal [b0; b1; b2; b3; b4; b5; b6] = true ->
        parse_63 (b0 :: b1 :: b2 :: b3 :: b4 :: b5 :: b6 :: more) =
          Ok (truediv (BcdSpec.value [b0; b1]) 10,
              truediv (BcdSpec.value [b2; b3]) 100,
              BcdSpec.value [b4; b5; b6]))
    /\ (forallb BcdSpec.decimal [b0; b1; b2; b3; b4; b5; b6; b7] = true ->
        parse_27 (b0 :: b1 :: b2 :: b3 :: b4 :: b5 :: b6 :: b7 :: more) =
          Ok (truediv (BcdSpec.value [b0; b1; b2; b3]) 100,
              truediv (BcdSpec.value [b4; b5; b6; b7]) 100))
    /\ parse_63 [x02; x30; x01; x00; x00; x05; x00] =
         Ok (23.0%float, 1.00%float, 500)
    /\ parse_27 [x00; x01; x23; x45; x00; x06; x78; x90] =
         Ok (123.45%float, 678.90%float).
Proof.
  intros.
  split; [rewrite parse_63_fields; reflexivity |].
  split; [rewrite parse_27_fields; reflexivity |].
  split.
  { intros H. rewrite parse_63_fields. simpl firstn.
    cbn [forallb] in H.
    repeat (apply andb_true_iff in H; destruct H as [? H]).
    rewrite !bcd_to_int_value by decimal_bytes.
    reflexivity. }
  split.
  { intros H. rewrite parse_27_fields. simpl firstn.
    cbn [forallb] in H.
    repeat (apply andb_true_iff in H; destruct H as [? H]).
    rewrite !bcd_to_int_value by decimal_bytes.
    reflexivity. }
  split; vm_compute; reflexivity.
Qed.

Lemma field_decoders_read_fixed_layout_witness :
  parse_63 [x22; x05; x12; x34; x00; x27; x50; x99] =
    Ok (truediv 2205 10, truediv 1234 100, 2750)
  /\ parse_27 [x22; x05; x12; x34; x00; x27; x50; x99] =
    Ok (truediv 22051234 100, truediv 275099 100).
Proof.
  pose proof (field_decoders_read_fixed_layout
                x22 x05 x12 x34 x00 x27 x50 x99 []) as H.
  destruct H as (_ & _ & H63 & H27 & _).
  split; [apply H63 | apply H27]; reflexivity.
Defined.

(** C10.  [bcd_to_int] of the empty sequence is 0, and both decoders return a
    full tuple on every BCD payload, however short: each field is read from
    the bytes of it that are there, which is the number the field would hold
    with zero bytes in front of them, and a field the payload does not reach
    reads 0.  No error is raised for a short payload. *)
Theorem decoders_total_on_short_payloads :
  forall p : bytes,
    forallb BcdSpec.decimal p = true ->
    bcd_to_int [] = Ok 0
    /\ parse_63 p = Ok (truediv (BcdSpec.field 0 2 p) 10,
                        truediv (BcdSpec.field 2 2 p) 100,
                        BcdSpec.field 4 3 p)
    /\ parse_27 p = Ok (truediv (BcdSpec.field 0 4 p) 100,
                        truediv (BcdSpec.field 4 4 p) 100)
    /\ (forall i w : nat,
          BcdSpec.field i w p = BcdSpec.value (firstn w (skipn i p)))
    /\ (forall i w : nat, (length p <= i)%nat -> BcdSpec.field i w p = 0).
Proof.
  intros p H. split; [reflexivity |].
  split; [apply parse_63_decimal, H |].
  split; [apply parse_27_decimal, H |].
  split.
  - intros i w. apply value_zero_filled.
  - intros i w L. unfold BcdSpec.field. rewrite value_zero_filled.
    rewrite skipn_all2 by exact L. rewrite firstn_nil. reflexivity.
Qed.

Lemma decoders_total_on_short_payloads_witness :
  forallb BcdSpec.decimal [x02; x30; x01] = true
  /\ parse_63 [x02; x30; x01] = Ok (23.0%float, truediv 1 100, 0)
  /\ parse_27 [x02; x30; x01] = Ok (truediv 23001 100, truediv 0 100)
  /\ parse_63 [] = Ok (truediv 0 10, truediv 0 100, 0).
Proof.
  split; [reflexivity |].
  destruct (decoders_total_on_short_payloads [x02; x30; x01] eq_refl)
    as (_ & H63 & H27 & _).
  destruct (decoders_total_on_short_payloads [] eq_refl) as (_ & H0 & _).
  split; [exact H63 |]. split; [exact H27 | exact H0].
Defined.

(** ** The exchange *)

Section ExchangeFacts.

Variable env : Env.

Lemma delivered_data (i m : nat) (chunk : bytes) :
  on_recv env i = RecvData chunk ->
  delivered env i (S m) = chunk ++ delivered env (S i) m.
Proof.
  intros E. unfold delivered. simpl. rewrite E. reflexivity.
Qed.

Lemma recv_loop_step (budget : nat) (deadline : float) (resp : bytes) (w : World) :
  recv_loop env (S budget) deadline resp w =
    if PrimFloat.ltb (on_clock env (ticks w)) deadline then
      match on_recv env (recvs w) with
      | RecvTimeout => (Ok None, with_read (with_tick w))
      | RecvError => (Raise OSError, with_read (with_tick w))
      | RecvData chunk =>
          if truthy chunk then
            if 6 <=? Z.of_nat (length (resp ++ chunk))
            then (Ok (Some (resp ++ chunk)), with_read (with_tick w))
            else recv_loop env budget deadline (resp ++ chunk)
                           (with_read (with_tick w))
          else (Ok None, with_read (with_tick w))
      end
    else (Ok None, with_tick w).
Proof.
  cbn [recv_loop]. unfold bindM at 1. unfold time_time at 1.
  destruct (PrimFloat.ltb (on_clock env (ticks w)) deadline); [| reflexivity].
  unfold bindM at 1. unfold recv at 1.
  change (recvs (with_tick w)) with (recvs w).
  destruct (on_recv env (recvs w)) as [chunk | |]; try reflexivity.
  destruct (truthy chunk); [| reflexivity].
  destruct (6 <=? Z.of_nat (length (resp ++ chunk))); reflexivity.
Qed.

Lemma attempts_step (n : nat) (frame : bytes) (w : World) :
  attempts env (S n) frame w =
    match on_send env (sends w) with
    | SendError => (Ok None, with_frame w frame)
    | SendOk =>
        match recv_loop env 6 (PrimFloat.add (on_clock env (ticks w)) TIMEOUT) []
                        (with_tick (with_frame w frame)) with
        | (Ok (Some resp), w') => (Ok (Some resp), w')
        | (Ok None, w') => attempts env n frame w'
        | (Raise e, w') => (Raise e, w')
        | (Spin, w') => (Spin, w')
        end
    end.
Proof.
  cbn [attempts]. unfold bindM at 1. unfold sendall at 1.
  destruct (on_send env (sends w)); [| reflexivity].
  unfold bindM at 1. unfold time_time at 1.
  change (ticks (with_frame w frame)) with (ticks w).
  unfold bindM at 1.
  destruct (recv_loop env 6 _ [] _) as [[[r |] | e |] w']; reflexivity.
Qed.

(** What a run of the receive loop leaves behind.  It touches neither the
    sending side nor the output; a returned response is the bytes held on
    entry followed by those of the reads made, and reaches six bytes with the
    last read only; an exception is the [OSError] of the last read; the
    budget lasts as long as six bytes are not yet there. *)
Lemma recv_loop_facts (budget : nat) (deadline : float) :
  forall (resp : bytes) (w w' : World) (out : res (option bytes)),
    (length resp < 6)%nat ->
    recv_loop env budget deadline resp w = (out, w') ->
    sends w' = sends w /\ wire w' = wire w /\ stdout w' = stdout w
    /\ (recvs w <= recvs w')%nat
    /\ match out with
       | Ok (Some r) =>
           exists m : nat,
             (0 < m)%nat /\ recvs w' = (recvs w + m)%nat
             /\ r = resp ++ delivered env (recvs w) m
             /\ (length (resp ++ delivered env (recvs w) (m - 1)) < 6
                 <= length r)%nat
       | Ok None => True
       | Raise e =>
           e = OSError /\ (recvs w < recvs w')%nat
           /\ on_recv env (recvs w' - 1) = RecvError
       | Spin => (length resp + budget < 6)%nat
       end.
Proof.
  induction budget as [| budget' IH]; intros resp w w' out Hlen E.
  - simpl in E. unfold lift in E. inversion E; subst. repeat split; lia.
  - rewrite recv_loop_step in E.
    destruct (PrimFloat.ltb (on_clock env (ticks w)) deadline).
    2:{ inversion E; subst. simpl. repeat split; lia. }
    destruct (on_recv env (recvs w)) as [chunk | |] eqn:R.
    + destruct chunk as [| c chunk'].
      { simpl in E. inversion E; subst. simpl. repeat split; lia. }
      cbn [truthy] in E.
      destruct (Z.leb_spec 6 (Z.of_nat (length (resp ++ c :: chunk')))) as [L | L].
      * inversion E; subst. simpl.
        repeat split; try lia.
        exists 1%nat. simpl.
        rewrite (delivered_data _ 0 _ R). unfold delivered. simpl.
        rewrite !app_nil_r. repeat split; lia.
      * assert (length (resp ++ c :: chunk') < 6)%nat as Hlen' by lia.
        specialize (IH _ _ _ _ Hlen' E). simpl in IH.
        destruct IH as (Hs & Hw & Ho & Hr & Hout).
        repeat split; try assumption; try lia.
        destruct out as [[r |] | e |].
        -- destruct Hout as (m & Hm & Hrec & Hres & Hsix).
           exists (S m). rewrite (delivered_data _ _ _ R).
           rewrite app_assoc. repeat split; try lia; try assumption.
           destruct m as [| m']; [lia |].
           replace (S (S m') - 1)%nat with (S m') by lia.
           replace (S m' - 1)%nat with m' in Hsix by lia.
           rewrite (delivered_data _ _ _ R), app_assoc. lia.
        -- exact I.
        -- destruct Hout as (He & Hlt & Herr). repeat split; try assumption; lia.
        -- rewrite length_app in Hout. rewrite length_app in Hlen'.
           simpl in Hout, Hlen'. lia.
    + inversion E; subst. simpl. repeat split; lia.
    + inversion E; subst. simpl.
      repeat split; try lia. rewrite Nat.sub_0_r. exact R.
Qed.

(** What a run of the attempts leaves behind. *)
Lemma attempts_facts (frame : bytes) (n : nat) :
  forall (w w' : World) (out : res (option bytes)),
    attempts env n frame w = (out, w') ->
    stdout w' = stdout w
    /\ (recvs w <= recvs w')%nat
    /\ exists k : nat,
         (k <= n)%nat /\ sends w' = (sends w + k)%nat
         /\ wire w' = wire w ++ repeat frame k
         /\ match out with
            | Ok (Some r) =>
                (0 < k)%nat
                /\ (forall i : nat,
                      (sends w <= i < sends w')%nat -> on_send env i = SendOk)
                /\ exists m : nat,
                     (0 < m <= recvs w' - recvs w)%nat
                     /\ r = delivered env (recvs w' - m) m
                     /\ (length (delivered env (recvs w' - m) (m - 1)) < 6
                         <= length r)%nat
            | Ok None =>
                (k = n
                 /\ forall i : nat,
                      (sends w <= i < sends w')%nat -> on_send env i = SendOk)
                \/ ((0 < k)%nat
                    /\ on_send env (sends w' - 1) = SendError
                    /\ forall i : nat,
                         (sends w <= i < sends w' - 1)%nat ->
                         on_send env i = SendOk)
            | Raise e =>
                e = OSError /\ (recvs w < recvs w')%nat
                /\ on_recv env (recvs w' - 1) = RecvError
            | Spin => False
            end.
Proof.
  induction n as [| n' IH]; intros w w' out E.
  - simpl in E. unfold ret in E. inversion E; subst.
    repeat split; try lia. exists 0%nat. simpl. rewrite app_nil_r.
    repeat split; try lia. left. split; [reflexivity | intros; lia].
  - rewrite attempts_step in E.
    destruct (on_send env (sends w)) eqn:S0.
    2:{ inversion E; subst. simpl.
        repeat split; try lia. exists 1%nat. simpl.
        repeat split; try lia. right. rewrite Nat.sub_0_r.
        repeat split; [lia | exact S0 | intros; lia]. }
    destruct (recv_loop env 6 _ [] _) as [o w3] eqn:L.
    apply recv_loop_facts in L; [| simpl; lia].
    cbn [sends ticks recvs wire stdout with_tick with_frame] in L.
    destruct L as (Ls & Lw & Lo & Lr & Lout).
    assert (forall i : nat, (sends w <= i < S (sends w))%nat ->
                            on_send env i = SendOk) as First.
    { intros i Hi. replace i with (sends w) by lia. exact S0. }
    destruct o as [[r |] | e |].
    + inversion E; subst. clear E.
      split; [assumption |]. split; [lia |]. exists 1%nat. simpl.
      repeat split; try lia; try assumption.
      * intros i Hi. apply First. lia.
      * destruct Lout as (m & Hm & Hrec & Hres & Hsix). exists m.
        replace (recvs w' - m)%nat with (recvs w) by lia.
        simpl in Hres, Hsix. repeat split; try lia; assumption.
    + apply IH in E. destruct E as (Eo & Er & k & Hk & Es & Ew & Eout).
      split; [congruence |]. split; [lia |]. exists (S k).
      rewrite Ew, Lw. simpl. rewrite <- app_assoc. simpl.
      repeat split; try lia.
      destruct out as [[r |] | e |].
      * destruct Eout as (Hk0 & Hall & m & Hm & Hres & Hsix).
        repeat split; try lia.
        -- intros i Hi. destruct (Nat.eq_dec i (sends w)) as [-> | Hne];
             [exact S0 | apply Hall; lia].
        -- exists m. repeat split; try lia; assumption.
      * destruct Eout as [[Hkn Hall] | (Hk0 & Herr & Hall)].
        -- left. split; [lia |]. intros i Hi.
           destruct (Nat.eq_dec i (sends w)) as [-> | Hne];
             [exact S0 | apply Hall; lia].
        -- right. repeat split; [lia | exact Herr |]. intros i Hi.
           destruct (Nat.eq_dec i (sends w)) as [-> | Hne];
             [exact S0 | apply Hall; lia].
      * destruct Eout as (He & Hlt & Herr). repeat split; try assumption; lia.
      * exact Eout.
    + inversion E; subst. clear E.
      split; [assumption |]. split; [lia |]. exists 1%nat. simpl.
      repeat split; try lia; try assumption; apply Lout.
    + simpl in Lout. lia.
Qed.

Lemma send_frame_attempts (retry : nat) (addr_hex cmd_hex : string)
      (frame : bytes) (w : World) :
  build_frame addr_hex cmd_hex = Ok frame ->
  send_frame env retry addr_hex cmd_hex w = attempts env retry frame w.
Proof.
  intros B. unfold send_frame, bindM, lift. rewrite B. reflexivity.
Qed.

End ExchangeFacts.






(** ** Request frames *)

Lemma string_pair_ind (P : string -> Prop) :
  P EmptyString ->
  (forall a : ascii, P (String a EmptyString)) ->
  (forall (a b : ascii) (s : string), P s -> P (String a (String b s))) ->
  forall s : string, P s.
Proof.
  intros H0 H1 H2 s.
  assert (P s /\ forall a : ascii, P (String a s)) as [H _]; [| exact H].
  induction s as [| c s [IHs IHc]].
  - split; [exact H0 | exact H1].
  - split; [apply IHc |]. intros a. apply H2, IHs.
Qed.

(** The raw bytes of two requests to one address differ in their last byte,
    the command. *)
Lemma fromhex_command (addr_hex : string) :
  forall r1 r2 : bytes,
    fromhex (addr_hex ++ "63") = Ok r1 ->
    fromhex (addr_hex ++ "27") = Ok r2 ->
    exists pre : bytes, r1 = pre ++ [x63] /\ r2 = pre ++ [x27].
Proof.
  induction addr_hex as [| a | a b s IH] using string_pair_ind; intros r1 r2 E1 E2.
  - exists []. vm_compute in E1, E2. inversion E1. inversion E2. split; reflexivity.
  - exfalso. cbn [String.append fromhex] in E1.
    destruct (hex_val a); [| discriminate].
    vm_compute in E1. discriminate.
  - cbn [String.append fromhex] in E1, E2.
    destruct (hex_val a) as [h |]; [| discriminate].
    destruct (hex_val b) as [l |]; [| discriminate].
    destruct (fromhex (s ++ "63")) as [t1 | |]; try discriminate.
    destruct (fromhex (s ++ "27")) as [t2 | |]; try discriminate.
    destruct (IH t1 t2 eq_refl eq_refl) as (pre & -> & ->).
    simpl in E1, E2. inversion E1. inversion E2.
    exists (byte_of_Z (16 * h + l) :: pre). split; reflexivity.
Qed.

Lemma build_frame_commands_differ (addr_hex : string) (f63 f27 : bytes) :
  build_frame addr_hex "63" = Ok f63 ->
  build_frame addr_hex "27" = Ok f27 ->
  f63 <> f27.
Proof.
  unfold build_frame. intros E1 E2.
  destruct (fromhex (addr_hex ++ "63")) as [r1 | |] eqn:R1; try discriminate.
  destruct (fromhex (addr_hex ++ "27")) as [r2 | |] eqn:R2; try discriminate.
  destruct (fromhex_command _ _ _ R1 R2) as (pre & -> & ->).
  simpl in E1, E2. rewrite crc16_modbus_checksum in E1, E2.
  simpl in E1, E2. inversion E1. inversion E2. subst.
  rewrite <- !app_assoc. intros H. apply app_inv_head in H. discriminate.
Qed.

(** ** Bytes that are not BCD *)

Lemma hex_digit_above_nine (bs : bytes) :
  forallb BcdSpec.decimal bs = false ->
  Exists (fun d => 9 < d) (BcdSpec.digits bs).
Proof.
  induction bs as [| b rest IH]; simpl; intros H; [discriminate |].
  apply andb_false_iff in H. destruct H as [H | H].
  - unfold BcdSpec.decimal in H. apply andb_false_iff in H.
    destruct H as [H | H]; apply Z.leb_gt in H.
    + apply Exists_cons_hd. lia.
    + apply Exists_cons_tl, Exists_cons_hd. lia.
  - apply Exists_cons_tl, Exists_cons_tl, IH, H.
Qed.

Lemma int_digits_rejects (ds : list Z) :
  Forall hex_nibble ds ->
  Exists (fun d => 9 < d) ds ->
  forall acc : Z, int_digits (BcdSpec.chars ds) acc = Raise ValueError.
Proof.
  intros Hf. induction Hf as [| d rest Hd Hr IH]; intros Hex acc.
  - inversion Hex.
  - simpl. rewrite digit_val_hex_digit by exact Hd.
    destruct (Z.leb_spec d 9) as [L | L]; [| reflexivity].
    apply IH. inversion Hex; subst; [lia | assumption].
Qed.

Lemma int_lstrip0_rejects (ds : list Z) :
  Forall hex_nibble ds ->
  Exists (fun d => 9 < d) ds ->
  Py.int (or_else (lstrip0 (BcdSpec.chars ds)) "0") = Raise ValueError.
Proof.
  intros Hf. induction Hf as [| d rest Hd Hr IH]; intros Hex.
  - inversion Hex.
  - destruct (Z.eq_dec d 0) as [-> | Hnz].
    + simpl. apply IH. inversion Hex; subst; [lia | assumption].
    + assert (lstrip0 (BcdSpec.chars (d :: rest)) = BcdSpec.chars (d :: rest)) as ->.
      { each_digit d Hd; try congruence; reflexivity. }
      pose proof (int_digits_rejects (d :: rest) (Forall_cons _ Hd Hr) Hex 0) as R.
      exact R.
Qed.

(** A nibble above 9 anywhere makes [bcd_to_int] raise [ValueError]. *)
Lemma bcd_to_int_rejects (bs : bytes) :
  forallb BcdSpec.decimal bs = false -> bcd_to_int bs = Raise ValueError.
Proof.
  intros H. unfold bcd_to_int. rewrite join_nibbles.
  apply int_lstrip0_rejects; [apply hex_digits_of_bytes |].
  apply hex_digit_above_nine, H.
Qed.

(** ** The poll loop *)

Section PollFacts.

Variables (env : Env) (retry : nat) (port : Z) (serial : string) (n : Z).
Hypothesis serial_number : Py.int serial = Ok n.

Lemma poll_serial_primary (w : World) :
  poll_serial env retry port serial w =
    match send_frame env retry (format_08X n) "63" w with
    | (Ok r63, w1) =>
        match rejected r63 with
        | Ok true => (Ok tt, with_line w1 (NoAnswer port serial))
        | Ok false =>
            match parse_63 (payload r63) with
            | Ok (U, A, P) =>
                match send_frame env retry (format_08X n) "27" w1 with
                | (Ok r27, w2) =>
                    match rejected r27 with
                    | Ok true => (Ok tt, with_line w2 (Partial port serial U A P))
                    | Ok false =>
                        match parse_27 (payload r27) with
                        | Ok (T1, T2) =>
                            (Ok tt,
                             with_line w2 (Complete port serial U A P T1 T2))
                        | Raise e => (Raise e, w2)
                        | Spin => (Spin, w2)
                        end
                    | Raise e => (Raise e, w2)
                    | Spin => (Spin, w2)
                    end
                | (Raise e, w2) => (Raise e, w2)
                | (Spin, w2) => (Spin, w2)
                end
            | Raise e => (Raise e, w1)
            | Spin => (Spin, w1)
            end
        | Raise e => (Raise e, w1)
        | Spin => (Spin, w1)
        end
    | (Raise e, w1) => (Raise e, w1)
    | (Spin, w1) => (Spin, w1)
    end.
Proof.
  unfold poll_serial. unfold bindM at 1. unfold lift at 1.
  rewrite serial_number. unfold bindM at 1.
  destruct (send_frame env retry (format_08X n) "63" w) as [[r63 | e |] w1];
    try reflexivity.
  unfold bindM at 1. unfold lift at 1.
  destruct (rejected r63) as [[|] | e |]; try reflexivity.
  unfold bindM at 1. unfold lift at 1.
  destruct (parse_63 (payload r63)) as [[[U A] P] | e |]; try reflexivity.
  unfold bindM at 1.
  destruct (send_frame env retry (format_08X n) "27" w1) as [[r27 | e |] w2];
    try reflexivity.
  unfold bindM at 1. unfold lift at 1.
  destruct (rejected r27) as [[|] | e |]; try reflexivity.
  unfold bindM at 1. unfold lift at 1.
  destruct (parse_27 (payload r27)) as [[T1 T2] | e |]; reflexivity.
Qed.

Lemma poll_serials_next (rest : list string) (w w' : World) :
  poll_serial env retry port serial w = (Ok tt, w') ->
  poll_serials env retry port (serial :: rest) w =
    poll_serials env retry port rest w'.
Proof.
  intros E. cbn [poll_serials]. unfold bindM. rewrite E. reflexivity.
Qed.

Lemma poll_serials_raise (rest : list string) (w w' : World) (e : exn) :
  poll_serial env retry port serial w = (Raise e, w') ->
  poll_serials env retry port (serial :: rest) w = (Raise e, w').
Proof.
  intros E. cbn [poll_serials]. unfold bindM. rewrite E. reflexivity.
Qed.

End PollFacts.

(** C5.  For a device polled from world [w]: when the measurement exchange
    returns [None] or a response that fails the checksum test, the row "no
    answer" is printed and nothing more is done for the device: the world is
    the one the exchange left, every frame put on the wire is the measurement
    request, which differs from the energy request, and the loop goes on with
    the next serial.  When the measurement response passes and decodes, and
    the energy exchange returns [None] or a response that fails the test, the
    row printed holds voltage, current and power with both energy cells
    dashed, no exception is raised, and the loop goes on with the next
    serial. *)
Theorem poll_reports_absent_and_partial :
  forall (env : Env) (retry : nat) (port : Z) (serial : string)
         (rest : list string) (n : Z) (f63 : bytes) (w : World),
    Py.int serial = Ok n ->
    build_frame (format_08X n) "63" = Ok f63 ->
    (forall (r63 : option bytes) (w1 : World),
        send_frame env retry (format_08X n) "63" w = (Ok r63, w1) ->
        rejected r63 = Ok true ->
        poll_serial env retry port serial w =
          (Ok tt, with_line w1 (NoAnswer port serial))
        /\ (exists k : nat,
              (k <= retry)%nat
              /\ wire (with_line w1 (NoAnswer port serial)) =
                   wire w ++ repeat f63 k)
        /\ (forall f27 : bytes,
              build_frame (format_08X n) "27" = Ok f27 -> f27 <> f63)
        /\ poll_serials env retry port (serial :: rest) w =
             poll_serials env retry port rest
                          (with_line w1 (NoAnswer port serial)))
    /\ (forall (r63 r27 : option bytes) (w1 w2 : World) (U A : float) (P : Z),
          send_frame env retry (format_08X n) "63" w = (Ok r63, w1) ->
          rejected r63 = Ok false ->
          parse_63 (payload r63) = Ok (U, A, P) ->
          send_frame env retry (format_08X n) "27" w1 = (Ok r27, w2) ->
          rejected r27 = Ok true ->
          poll_serial env retry port serial w =
            (Ok tt, with_line w2 (Partial port serial U A P))
          /\ poll_serials env retry port (serial :: rest) w =
               poll_serials env retry port rest
                            (with_line w2 (Partial port serial U A P))).
Proof.
  intros env retry port serial rest n f63 w Hn B. split.
  - intros r63 w1 E R.
    assert (poll_serial env retry port serial w =
              (Ok tt, with_line w1 (NoAnswer port serial))) as Hp.
    { rewrite (poll_serial_primary _ _ _ _ _ Hn), E, R. reflexivity. }
    split; [exact Hp |]. split; [| split].
    + rewrite (send_frame_attempts _ _ _ _ _ _ B) in E.
      apply attempts_facts in E.
      destruct E as (_ & _ & k & Hk & _ & Hw & _).
      exists k. split; [exact Hk | exact Hw].
    + intros f27 B27 Heq. symmetry in Heq.
      exact (build_frame_commands_differ _ _ _ B B27 Heq).
    + apply (poll_serials_next _ _ _ _ _ _ _ Hp).
  - intros r63 r27 w1 w2 U A P E63 R63 D63 E27 R27.
    assert (poll_serial env retry port serial w =
              (Ok tt, with_line w2 (Partial port serial U A P))) as Hp.
    { rewrite (poll_serial_primary _ _ _ _ _ Hn), E63, R63, D63, E27, R27.
      reflexivity. }
    split; [exact Hp | apply (poll_serials_next _ _ _ _ _ _ _ Hp)].
Qed.

Lemma poll_reports_absent_and_partial_witness :
  (exists w2 : World,
      poll_serial Scenario.silent_on_energy RETRY 20003 "548973" start =
        (Ok tt, with_line w2 (Partial 20003 "548973" 23.0%float 1.0%float 500))
      /\ poll_serials Scenario.silent_on_energy RETRY 20003
                      ["548973"; "548974"]%string start =
           poll_serials Scenario.silent_on_energy RETRY 20003 ["548974"%string]
             (with_line w2 (Partial 20003 "548973" 23.0%float 1.0%float 500)))
  /\ (exists w1 : World,
        poll_serial Scenario.silent RETRY 20003 "548973" start =
          (Ok tt, with_line w1 (NoAnswer 20003 "548973"))
        /\ wire w1 = [[x00; x08; x60; x6d; x63; x4a; xc7]]).
Proof.
  assert (Py.int "548973" = Ok 548973) as N by (vm_compute; reflexivity).
  assert (build_frame (format_08X 548973) "63" =
            Ok [x00; x08; x60; x6d; x63; x4a; xc7])
    as B by (vm_compute; reflexivity).
  split.
  - exists {| sends := 2; ticks := 4; recvs := 2;
              wire := [[x00; x08; x60; x6d; x63; x4a; xc7];
                       [x00; x08; x60; x6d; x27; x4a; xf4]];
              stdout := [] |}.
    refine (proj2 (poll_reports_absent_and_partial
                     Scenario.silent_on_energy RETRY 20003 "548973"
                     ["548974"%string] 548973
                     [x00; x08; x60; x6d; x63; x4a; xc7] start N B)
                  (Some (Scenario.reply Scenario.echo63 Scenario.body63)) None
                  {| sends := 1; ticks := 2; recvs := 1;
                     wire := [[x00; x08; x60; x6d; x63; x4a; xc7]];
                     stdout := [] |}
                  {| sends := 2; ticks := 4; recvs := 2;
                     wire := [[x00; x08; x60; x6d; x63; x4a; xc7];
                              [x00; x08; x60; x6d; x27; x4a; xf4]];
                     stdout := [] |}
                  23.0%float 1.0%float 500 _ _ _ _ _);
      vm_compute; reflexivity.
  - exists {| sends := 1; ticks := 2; recvs := 1;
              wire := [[x00; x08; x60; x6d; x63; x4a; xc7]];
              stdout := [] |}.
    split; [| reflexivity].
    refine (proj1 (proj1 (poll_reports_absent_and_partial
                     Scenario.silent RETRY 20003 "548973"
                     [] 548973
                     [x00; x08; x60; x6d; x63; x4a; xc7] start N B)
                  None _ _ _));
      vm_compute; reflexivity.
Defined.

(** C8, as stated, fails: a response that is received and passes the checksum
    test but carries no payload at all is not reported as malformed; its
    fields are read as zeros and the device gets the row of a partial reading
    (the energy read being unanswered here). *)
Lemma short_payload_is_read_as_zeros :
  exists (r63 : bytes) (w1 w' : World),
    send_frame Scenario.empty_payload RETRY "0008606D" "63" start =
      (Ok (Some r63), w1)
    /\ rejected (Some r63) = Ok false
    /\ length (payload (Some r63)) = 0%nat
    /\ poll_serial Scenario.empty_payload RETRY 20003 "548973" start = (Ok tt, w')
    /\ stdout w' = [Partial 20003 "548973" 0%float 0%float 0].
Proof.
  do 3 eexists. split; [vm_compute; reflexivity |].
  split; [vm_compute; reflexivity |].
  split; [vm_compute; reflexivity |].
  split; vm_compute; reflexivity.
Qed.

(** C8, amended.  A response that is received and passes the checksum test is
    decoded whatever the length of its payload; no outcome for a malformed
    payload exists.  With BCD bytes, each field is read from the bytes of it
    that are there, a field the payload does not reach as 0, and the device
    gets the row of a partial reading when the energy exchange is rejected
    and of a complete reading when it passes. *)
Theorem short_payload_is_decoded_as_reading :
  forall (env : Env) (retry : nat) (port : Z) (serial : string) (n : Z)
         (r63 : option bytes) (w w1 : World),
    Py.int serial = Ok n ->
    send_frame env retry (format_08X n) "63" w = (Ok r63, w1) ->
    rejected r63 = Ok false ->
    forallb BcdSpec.decimal (payload r63) = true ->
    let U := truediv (BcdSpec.field 0 2 (payload r63)) 10 in
    let A := truediv (BcdSpec.field 2 2 (payload r63)) 100 in
    let P := BcdSpec.field 4 3 (payload r63) in
    (forall (r27 : option bytes) (w2 : World),
        send_frame env retry (format_08X n) "27" w1 = (Ok r27, w2) ->
        rejected r27 = Ok true ->
        poll_serial env retry port serial w =
          (Ok tt, with_line w2 (Partial port serial U A P)))
    /\ (forall (r27 : option bytes) (w2 : World),
          send_frame env retry (format_08X n) "27" w1 = (Ok r27, w2) ->
          rejected r27 = Ok false ->
          forallb BcdSpec.decimal (payload r27) = true ->
          poll_serial env retry port serial w =
            (Ok tt,
             with_line w2
               (Complete port serial U A P
                  (truediv (BcdSpec.field 0 4 (payload r27)) 100)
                  (truediv (BcdSpec.field 4 4 (payload r27)) 100))))
    /\ (forall i k : nat,
          (length (payload r63) <= i)%nat ->
          BcdSpec.field i k (payload r63) = 0).
Proof.
  intros env retry port serial n r63 w w1 Hn E63 R63 D63 U A P.
  split; [| split].
  - intros r27 w2 E27 R27.
    rewrite (poll_serial_primary _ _ _ _ _ Hn), E63, R63.
    rewrite (parse_63_decimal _ D63), E27, R27. reflexivity.
  - intros r27 w2 E27 R27 D27.
    rewrite (poll_serial_primary _ _ _ _ _ Hn), E63, R63.
    rewrite (parse_63_decimal _ D63), E27, R27.
    rewrite (parse_27_decimal _ D27). reflexivity.
  - intros i k L. unfold BcdSpec.field. rewrite value_zero_filled.
    rewrite skipn_all2 by exact L. rewrite firstn_nil. reflexivity.
Qed.

Lemma short_payload_is_decoded_as_reading_witness :
  poll_serial Scenario.short_payloads RETRY 20003 "548973" start =
    (Ok tt,
     with_line
       {| sends := 2; ticks := 4; recvs := 2;
          wire := [[x00; x08; x60; x6d; x63; x4a; xc7];
                   [x00; x08; x60; x6d; x27; x4a; xf4]];
          stdout := [] |}
       (Complete 20003 "548973"
          (truediv (BcdSpec.field 0 2 [x02; x30; x01]) 10)
          (truediv (BcdSpec.field 2 2 [x02; x30; x01]) 100)
          (BcdSpec.field 4 3 [x02; x30; x01])
          (truediv (BcdSpec.field 0 4 [x00; x01; x23; x45; x06]) 100)
          (truediv (BcdSpec.field 4 4 [x00; x01; x23; x45; x06]) 100)))
  /\ BcdSpec.field 4 3 [x02; x30; x01] = 0
  /\ BcdSpec.field 2 2 [x02; x30; x01] = 1.
Proof.
  assert (Py.int "548973" = Ok 548973) as N by (vm_compute; reflexivity).
  assert (send_frame Scenario.short_payloads RETRY (format_08X 548973) "63" start =
            (Ok (Some (Scenario.reply Scenario.echo63 [x02; x30; x01])),
             {| sends := 1; ticks := 2; recvs := 1;
                wire := [[x00; x08; x60; x6d; x63; x4a; xc7]];
                stdout := [] |}))
    as E63 by (vm_compute; reflexivity).
  assert (rejected (Some (Scenario.reply Scenario.echo63 [x02; x30; x01])) =
            Ok false) as R63 by (vm_compute; reflexivity).
  assert (forallb BcdSpec.decimal
            (payload (Some (Scenario.reply Scenario.echo63 [x02; x30; x01]))) =
            true) as D63 by (vm_compute; reflexivity).
  pose proof (short_payload_is_decoded_as_reading
                Scenario.short_payloads RETRY 20003 "548973" 548973
                _ start _ N E63 R63 D63) as H.
  cbv zeta in H. destruct H as (_ & Hfull & _).
  split; [| split; vm_compute; reflexivity].
  refine (Hfull (Some (Scenario.reply Scenario.echo27
                         [x00; x01; x23; x45; x06])) _ _ _ _);
    vm_compute; reflexivity.
Defined.

(** C9, at the inputs where the program fails it.  A measurement response
    that passes the checksum test and holds a nibble above 9 makes the poll
    loop raise [ValueError]: no row is printed for that device and the device
    after it is not polled.  The same happens, with [OSError], when [recv]
    raises an error other than its timeout, which [send_frame] catches for
    [sendall] only. *)
Theorem poll_aborts_on_bad_nibble :
  (rejected (Some (Scenario.reply Scenario.echo63
                     [x02; xaa; x01; x00; x00; x05; x00])) = Ok false
   /\ exists w' : World,
        poll_serials Scenario.bad_nibble RETRY 20003
                     ["548973"; "548974"]%string start = (Raise ValueError, w')
        /\ stdout w' = []
        /\ sends w' = 1%nat)
  /\ (exists w' : World,
        poll_serials Scenario.reset_by_peer RETRY 20003
                     ["548973"; "548974"]%string start = (Raise OSError, w')
        /\ stdout w' = [])
  /\ (forall (env : Env) (retry : nat) (port : Z) (serial : string)
             (rest : list string) (n : Z) (r63 : option bytes) (w w1 : World),
        Py.int serial = Ok n ->
        send_frame env retry (format_08X n) "63" w = (Ok r63, w1) ->
        rejected r63 = Ok false ->
        forallb BcdSpec.decimal (firstn 2 (payload r63)) = false ->
        poll_serials env retry port (serial :: rest) w = (Raise ValueError, w1)).
Proof.
  split; [| split].
  - split; [vm_compute; reflexivity |].
    eexists. split; [vm_compute; reflexivity |]. split; reflexivity.
  - eexists. split; [vm_compute; reflexivity | reflexivity].
  - intros env retry port serial rest n r63 w w1 Hn E63 R63 D.
    apply (poll_serials_raise _ _ _ _ _ _ _).
    rewrite (poll_serial_primary _ _ _ _ _ Hn), E63, R63.
    rewrite parse_63_fields, (bcd_to_int_rejects _ D). reflexivity.
Qed.

Lemma poll_aborts_on_bad_nibble_witness :
  poll_serials Scenario.bad_nibble RETRY 20003
               ["548973"; "548974"]%string start =
    (Raise ValueError,
     {| sends := 1; ticks := 2; recvs := 1;
        wire := [[x00; x08; x60; x6d; x63; x4a; xc7]];
        stdout := [] |}).
Proof.
  assert (Py.int "548973" = Ok 548973) as N by (vm_compute; reflexivity).
  refine (proj2 (proj2 poll_aborts_on_bad_nibble)
            Scenario.bad_nibble RETRY 20003 "548973"%string
            ["548974"%string] 548973
            (Some (Scenario.reply Scenario.echo63
                     [x02; xaa; x01; x00; x00; x05; x00]))
            start _ N _ _ _);
    vm_compute; reflexivity.
Defined.

(** * Further properties *)

(** ** Validation *)

Lemma byte_of_Z_val (b : byte) : byte_of_Z (byte_val b) = b.
Proof.
  unfold byte_of_Z. pose proof (byte_val_range b) as R.
  rewrite Z.mod_small by exact R.
  unfold byte_val. rewrite N2Z.id, Byte.of_to_N. reflexivity.
Qed.

(** [s[:-2] + s[-2:]] is [s]. *)
Lemma slice_split_tail {A : Type} (s : list A) :
  slice s None (Some (-2)) ++ slice s (Some (-2)) None = s.
Proof.
  unfold slice, index. change (-2 <? 0) with true. cbv iota.
  set (len := Z.of_nat (length s)).
  rewrite Z.sub_0_r. simpl skipn at 1.
  assert (firstn (Z.to_nat (len - Z.max (len + -2) 0))
                 (skipn (Z.to_nat (Z.max (len + -2) 0)) s) =
          skipn (Z.to_nat (Z.max (len + -2) 0)) s) as ->.
  { apply firstn_all2. rewrite length_skipn. unfold len. lia. }
  apply firstn_skipn.
Qed.

Lemma rejected_total (r : option bytes) : exists b : bool, rejected r = Ok b.
Proof.
  destruct r as [r |]; simpl; [| exists true; reflexivity].
  destruct (truthy r); [| exists true; reflexivity].
  unfold crc_mismatch. rewrite crc16_modbus_checksum. simpl.
  eexists. reflexivity.
Qed.

(** X1.  A response passes the test of the poll loop exactly when it is some
    byte sequence followed by the checksum [crc16_modbus] returns for that
    sequence; in particular a response of fewer than two bytes never
    passes. *)
Theorem accepted_iff_ends_with_own_checksum :
  forall r : bytes,
    rejected (Some r) = Ok false
    <-> exists b c : bytes, crc16_modbus b = Ok c /\ r = b ++ c.
Proof.
  intros r. split.
  - intros H. unfold rejected in H.
    destruct (truthy r); [| discriminate].
    unfold crc_mismatch in H. rewrite crc16_modbus_checksum in H.
    simpl in H.
    destruct (bytes_eqb (CrcSpec.checksum (slice r None (Some (-2))))
                        (slice r (Some (-2)) None)) eqn:E; [| discriminate].
    unfold bytes_eqb in E.
    destruct (list_eq_dec byte_eq_dec _ _) as [Eq | ]; [| discriminate].
    exists (slice r None (Some (-2))), (slice r (Some (-2)) None).
    split.
    + rewrite crc16_modbus_checksum, Eq. reflexivity.
    + symmetry. apply slice_split_tail.
  - intros (b & c & Hc & ->). rewrite crc16_modbus_checksum in Hc.
    inversion Hc. apply accepted_own_checksum.
Qed.

(** ** The checksum of a checked frame *)

Lemma shift_double (x : Z) : 0 <= x -> CrcSpec.shift (2 * x) = x.
Proof.
  intros Hx. unfold CrcSpec.shift.
  assert (Z.odd (2 * x) = false) as -> by (rewrite Z.odd_mul; reflexivity).
  rewrite Z.mul_comm. apply Z.div_mul. lia.
Qed.

Lemma eight_shifts (h : Z) :
  0 <= h ->
  CrcSpec.shift (CrcSpec.shift (CrcSpec.shift (CrcSpec.shift (CrcSpec.shift
    (CrcSpec.shift (CrcSpec.shift (CrcSpec.shift (256 * h)))))))) = h.
Proof.
  intros Hh.
  replace (256 * h) with (2 * (2 * (2 * (2 * (2 * (2 * (2 * (2 * h)))))))) by lia.
  rewrite !shift_double by lia. reflexivity.
Qed.

Lemma step_own_low_byte (v : Z) :
  0 <= v -> CrcSpec.step v (byte_of_Z (v mod 256)) = v / 256.
Proof.
  intros Hv. unfold CrcSpec.step, CrcSpec.xor_low_byte.
  rewrite byte_val_of_Z, Z.mod_mod by lia.
  rewrite Z.lxor_nilpotent, Z.add_0_r.
  apply eight_shifts, Z.div_pos; lia.
Qed.

(** X2.  The checksum of a frame that carries its own checksum is zero:
    for every byte sequence [b] with checksum [c], [crc16_modbus (b + c)]
    returns the bytes [00 00]. *)
Theorem checksum_of_checked_frame_is_zero :
  forall b : bytes,
    exists c : bytes,
      crc16_modbus b = Ok c /\ crc16_modbus (b ++ c) = Ok [x00; x00].
Proof.
  intros b. exists (CrcSpec.checksum b).
  split; [apply crc16_modbus_checksum |].
  rewrite crc16_modbus_checksum.
  unfold CrcSpec.checksum at 1. f_equal.
  assert (CrcSpec.register (b ++ CrcSpec.checksum b) = 0) as ->; [| reflexivity].
  destruct (crc_register_spec b) as [_ W].
  destruct (crc_register_spec (b ++ CrcSpec.checksum b)) as [<- _].
  unfold crc_register. rewrite fold_left_app.
  fold (crc_register b). destruct (crc_register_spec b) as [-> _].
  set (v := CrcSpec.register b) in *. unfold word16 in W.
  destruct (fold_crc_update_spec (CrcSpec.checksum b) v W) as [-> _].
  unfold CrcSpec.checksum. fold v. unfold CrcSpec.little_endian.
  cbn [CrcSpec.run].
  rewrite step_own_low_byte by lia.
  assert (0 <= v / 256 < 256) as Hh
    by (split; [apply Z.div_pos; lia | apply Z.div_lt_upper_bound; lia]).
  rewrite <- (Z.mod_small (v / 256) 256) at 2 by exact Hh.
  rewrite step_own_low_byte by lia.
  apply Z.div_small. exact Hh.
Qed.

(** ** BCD: errors, range and uniqueness *)

Lemma number_from (ds : list Z) (acc : Z) :
  fold_left (fun a d => 10 * a + d) ds acc =
    acc * 10 ^ Z.of_nat (length ds) + BcdSpec.number ds.
Proof.
  unfold BcdSpec.number. revert acc.
  induction ds as [| d rest IH]; intros acc.
  - simpl. lia.
  - cbn [fold_left length]. rewrite IH, (IH (10 * 0 + d)).
    rewrite Nat2Z.inj_succ, Z.pow_succ_r by lia. lia.
Qed.

Lemma number_cons (d : Z) (ds : list Z) :
  BcdSpec.number (d :: ds) = d * 10 ^ Z.of_nat (length ds) + BcdSpec.number ds.
Proof.
  unfold BcdSpec.number at 1. cbn [fold_left]. rewrite number_from. lia.
Qed.

Lemma number_range (ds : list Z) :
  Forall decimal_digit ds ->
  0 <= BcdSpec.number ds < 10 ^ Z.of_nat (length ds).
Proof.
  intros H. induction H as [| d rest Hd Hr IH].
  - unfold BcdSpec.number. simpl. lia.
  - rewrite number_cons. cbn [length].
    rewrite Nat2Z.inj_succ, Z.pow_succ_r by lia.
    unfold decimal_digit in Hd.
    assert (0 < 10 ^ Z.of_nat (length rest)) by (apply Z.pow_pos_nonneg; lia).
    nia.
Qed.

Lemma number_unique (ds es : list Z) :
  Forall decimal_digit ds -> Forall decimal_digit es ->
  length ds = length es ->
  BcdSpec.number ds = BcdSpec.number es -> ds = es.
Proof.
  intros Hd. revert es. induction Hd as [| d rest Hd Hr IH]; intros es He L E.
  - destruct es; [reflexivity | discriminate].
  - destruct He as [| e erest He Her]; [discriminate |].
    injection L as L. rewrite !number_cons, <- L in E.
    pose proof (number_range rest Hr) as R1.
    pose proof (number_range erest Her) as R2. rewrite <- L in R2.
    unfold decimal_digit in Hd, He.
    assert (d = e) by nia. subst e.
    f_equal. apply IH; [exact Her | exact L | lia].
Qed.

Lemma digits_length (bs : bytes) :
  length (BcdSpec.digits bs) = (2 * length bs)%nat.
Proof.
  induction bs as [| b rest IH]; simpl; [reflexivity | rewrite IH; lia].
Qed.

Lemma byte_of_nibbles (b c : byte) :
  BcdSpec.hi b = BcdSpec.hi c -> BcdSpec.lo b = BcdSpec.lo c -> b = c.
Proof.
  unfold BcdSpec.hi, BcdSpec.lo. intros Hh Hl.
  rewrite <- (byte_of_Z_val b), <- (byte_of_Z_val c). f_equal.
  rewrite (Z.div_mod (byte_val b) 16), (Z.div_mod (byte_val c) 16) by lia.
  congruence.
Qed.

Lemma digits_unique (bs cs : bytes) :
  BcdSpec.digits bs = BcdSpec.digits cs -> bs = cs.
Proof.
  revert cs. induction bs as [| b rest IH]; intros [| c crest] E;
    try reflexivity; try discriminate.
  simpl in E. injection E as Hh Hl Hr.
  f_equal; [apply byte_of_nibbles; assumption | apply IH, Hr].
Qed.



(** X4.  On BCD fields of one width [bcd_to_int] is one-to-one: two byte
    sequences of the same length, all nibbles at most 9, that give the same
    number are the same sequence. *)
Theorem bcd_to_int_one_to_one :
  forall bs cs : bytes,
    forallb BcdSpec.decimal bs = true ->
    forallb BcdSpec.decimal cs = true ->
    length bs = length cs ->
    bcd_to_int bs = bcd_to_int cs ->
    bs = cs.
Proof.
  intros bs cs Hb Hc L E.
  rewrite (bcd_to_int_value _ Hb), (bcd_to_int_value _ Hc) in E.
  injection E as E. apply digits_unique.
  apply number_unique.
  - apply decimal_digits, Hb.
  - apply decimal_digits, Hc.
  - rewrite !digits_length, L. reflexivity.
  - exact E.
Qed.

Lemma bcd_to_int_one_to_one_witness :
  [x12; x34] = [x12; x34].
Proof.
  apply (bcd_to_int_one_to_one [x12; x34] [x12; x34]); reflexivity.
Defined.

(** ** Field decoders: when they raise *)

Lemma firstn_plus {A : Type} (a b : nat) (l : list A) :
  firstn (a + b) l = firstn a l ++ firstn b (skipn a l).
Proof.
  revert l. induction a as [| a IH]; intros l; [reflexivity |].
  destruct l as [| x l]; simpl.
  - rewrite firstn_nil. reflexivity.
  - rewrite IH. reflexivity.
Qed.

Lemma bcd_to_int_cases (bs : bytes) :
  bcd_to_int bs =
    if forallb BcdSpec.decimal bs then Ok (BcdSpec.value bs) else Raise ValueError.
Proof.
  destruct (forallb BcdSpec.decimal bs) eqn:E.
  - apply bcd_to_int_value, E.
  - apply bcd_to_int_rejects, E.
Qed.

(** X5.  [parse_63] returns a reading exactly when the first seven bytes of
    the payload (or as many as there are) hold no nibble above 9, and raises
    [ValueError] otherwise; [parse_27] likewise for the first eight.  Bytes
    beyond the fields are never looked at.  The power read is below a
    million. *)
Theorem field_decoders_raise_on_bad_nibble_only :
  forall p : bytes,
    (if forallb BcdSpec.decimal (firstn 7 p)
     then exists (U A : float) (P : Z),
            parse_63 p = Ok (U, A, P) /\ 0 <= P < 1000000
     else parse_63 p = Raise ValueError)
    /\ (if forallb BcdSpec.decimal (firstn 8 p)
        then exists T1 T2 : float, parse_27 p = Ok (T1, T2)
        else parse_27 p = Raise ValueError).
Proof.
  intros p. split.
  - change 7%nat with (2 + (2 + 3))%nat.
    rewrite firstn_plus, forallb_app.
    rewrite (firstn_plus 2 3 (skipn 2 p)), forallb_app, skipn_skipn.
    change (2 + 2)%nat with 4%nat.
    rewrite parse_63_fields, !bcd_to_int_cases.
    destruct (forallb BcdSpec.decimal (firstn 2 p)); [| reflexivity].
    destruct (forallb BcdSpec.decimal (firstn 2 (skipn 2 p))); [| reflexivity].
    destruct (forallb BcdSpec.decimal (firstn 3 (skipn 4 p))) eqn:D;
      [| reflexivity].
    cbn [bind].
    exists (truediv (BcdSpec.value (firstn 2 p)) 10),
           (truediv (BcdSpec.value (firstn 2 (skipn 2 p))) 100),
           (BcdSpec.value (firstn 3 (skipn 4 p))).
    split; [reflexivity |].
    pose proof (number_range _ (decimal_digits _ D)) as R.
    rewrite digits_length in R. unfold BcdSpec.value.
    assert (length (firstn 3 (skipn 4 p)) <= 3)%nat as L by apply firstn_le_length.
    assert (10 ^ Z.of_nat (2 * length (firstn 3 (skipn 4 p))) <= 10 ^ 6)
      by (apply Z.pow_le_mono_r; lia).
    change (10 ^ 6) with 1000000 in *. lia.
  - change 8%nat with (4 + 4)%nat.
    rewrite firstn_plus, forallb_app.
    rewrite parse_27_fields, !bcd_to_int_cases.
    destruct (forallb BcdSpec.decimal (firstn 4 p)); [| reflexivity].
    destruct (forallb BcdSpec.decimal (firstn 4 (skipn 4 p))); [| reflexivity].
    cbn [bind]. do 2 eexists. reflexivity.
Qed.

(** ** The address of a meter *)

Lemma hex_fixed_length (k : nat) :
  forall (n : Z) (acc : string),
    String.length (hex_fixed k n acc) = (k + String.length acc)%nat.
Proof.
  induction k as [| k IH]; intros n acc; simpl; [reflexivity |].
  rewrite IH. simpl. lia.
Qed.

Lemma zeros_shift (k : nat) (s : string) :
  (zeros k ++ String "0" s)%string = String "0" (zeros k ++ s)%string.
Proof.
  induction k as [| k IH]; simpl; [reflexivity | rewrite IH; reflexivity].
Qed.

Lemma hex_fixed_zero (k : nat) :
  forall acc : string, hex_fixed k 0 acc = (zeros k ++ acc)%string.
Proof.
  induction k as [| k IH]; intros acc; [reflexivity |].
  cbn [hex_fixed]. change (0 / 16) with 0. change (0 mod 16) with 0.
  rewrite IH. change (hex_digit 0) with "0"%char.
  rewrite zeros_shift. reflexivity.
Qed.

Lemma hex_fixed_pad (j : nat) :
  forall (k : nat) (n : Z) (acc : string),
    (j <= k)%nat -> 0 <= n < 16 ^ Z.of_nat j ->
    hex_fixed k n acc = (zeros (k - j) ++ hex_fixed j n acc)%string.
Proof.
  induction j as [| j IH]; intros k n acc Hjk Hn.
  - simpl in Hn. assert (n = 0) as -> by lia.
    rewrite Nat.sub_0_r. apply hex_fixed_zero.
  - destruct k as [| k]; [lia |].
    rewrite Nat2Z.inj_succ, Z.pow_succ_r in Hn by lia.
    cbn [hex_fixed]. rewrite (IH k); [reflexivity | lia |].
    split; [apply Z.div_pos; lia | apply Z.div_lt_upper_bound; lia].
Qed.

Lemma hex_digits_fixed (fuel : nat) :
  forall (n : Z) (acc : string),
    0 <= n < 16 ^ (Z.of_nat fuel + 1) ->
    exists j : nat,
      (1 <= j)%nat /\ n < 16 ^ Z.of_nat j
      /\ (j = 1%nat \/ 16 ^ (Z.of_nat j - 1) <= n)
      /\ hex_digits fuel n acc = hex_fixed j n acc.
Proof.
  induction fuel as [| fuel IH]; intros n acc Hn.
  - exists 1%nat. simpl in Hn. change (16 ^ Z.of_nat 1) with 16.
    repeat split; try lia; try (left; reflexivity).
  - cbn [hex_digits]. destruct (Z.ltb_spec n 16) as [L | L].
    + exists 1%nat. change (16 ^ Z.of_nat 1) with 16.
      split; [lia |]. split; [lia |]. split; [left; reflexivity |].
      cbn [hex_fixed]. rewrite Z.mod_small by lia. reflexivity.
    + assert (0 <= n / 16 < 16 ^ (Z.of_nat fuel + 1)) as Hq.
      { split; [apply Z.div_pos; lia |].
        apply Z.div_lt_upper_bound; [lia |].
        rewrite Nat2Z.inj_succ in Hn.
        replace (Z.succ (Z.of_nat fuel) + 1) with (Z.succ (Z.of_nat fuel + 1))
          in Hn by lia.
        rewrite Z.pow_succ_r in Hn by lia. lia. }
      destruct (IH (n / 16) (String (hex_digit (n mod 16)) acc) Hq)
        as (j & Hj1 & Hjn & Hmin & E).
      exists (S j). rewrite E.
      pose proof (Z.div_mod n 16 ltac:(lia)) as DM.
      pose proof (Z.mod_pos_bound n 16 ltac:(lia)) as MB.
      split; [lia |]. split; [| split; [| reflexivity]].
      * rewrite Nat2Z.inj_succ, Z.pow_succ_r by lia. lia.
      * right. replace (Z.of_nat (S j) - 1) with (Z.of_nat j) by lia.
        destruct Hmin as [-> | Hmin]; [change (16 ^ Z.of_nat 1) with 16; lia |].
        replace (Z.of_nat j) with (Z.succ (Z.of_nat j - 1)) by lia.
        rewrite Z.pow_succ_r by lia. lia.
Qed.

Lemma format_08X_fixed (n : Z) :
  0 <= n < 4294967296 -> format_08X n = hex_fixed 8 n EmptyString.
Proof.
  intros Hn. unfold format_08X, format_X.
  assert (0 <= n < 16 ^ (Z.of_nat (Z.to_nat (Z.log2 n)) + 1)) as Hf.
  { split; [lia |]. pose proof (Z.log2_nonneg n) as L0.
    rewrite Z2Nat.id by exact L0.
    destruct (Z.eq_dec n 0) as [-> | Hnz]; [reflexivity |].
    destruct (Z.log2_spec n ltac:(lia)) as [_ Hlt].
    apply Z.lt_le_trans with (1 := Hlt).
    replace (Z.succ (Z.log2 n)) with (Z.log2 n + 1) by lia.
    apply Z.pow_le_mono_l. lia. }
  destruct (hex_digits_fixed _ n EmptyString Hf) as (j & Hj1 & Hjn & Hmin & E).
  rewrite E, hex_fixed_length. simpl String.length. rewrite Nat.add_0_r.
  assert (j <= 8)%nat as Hj8.
  { destruct Hmin as [-> | Hmin]; [lia |].
    destruct (Nat.le_gt_cases j 8) as [? | G]; [assumption |].
    assert (16 ^ 8 <= 16 ^ (Z.of_nat j - 1)) by (apply Z.pow_le_mono_r; lia).
    change (16 ^ 8) with 4294967296 in *. lia. }
  symmetry. apply hex_fixed_pad; [exact Hj8 | lia].
Qed.

Lemma hex_val_hex_digit (d : Z) : hex_nibble d -> hex_val (hex_digit d) = Some d.
Proof.
  intros H. each_digit d H; reflexivity.
Qed.

Lemma byte_of_two_digits (x : Z) :
  byte_of_Z (16 * ((x / 16) mod 16) + x mod 16) = byte_of_Z x.
Proof.
  unfold byte_of_Z.
  assert ((16 * ((x / 16) mod 16) + x mod 16) mod 256 = x mod 256) as ->;
    [| reflexivity].
  change 256 with (16 * 16).
  rewrite (Z.rem_mul_r x 16 16) by lia.
  pose proof (Z.mod_pos_bound x 16 ltac:(lia)).
  pose proof (Z.mod_pos_bound (x / 16) 16 ltac:(lia)).
  rewrite Z.mod_small by lia. lia.
Qed.

Lemma fromhex_fixed_address (n : Z) (cmd_hex : string) :
  fromhex (hex_fixed 8 n EmptyString ++ cmd_hex) =
    (r <- fromhex cmd_hex ;;
     Ok (byte_of_Z (n / 16777216) :: byte_of_Z (n / 65536)
           :: byte_of_Z (n / 256) :: byte_of_Z n :: r)).
Proof.
  cbn [hex_fixed String.append fromhex].
  rewrite !hex_val_hex_digit
    by (unfold hex_nibble;
        match goal with
        | |- 0 <= ?x mod 16 <= 15 =>
            pose proof (Z.mod_pos_bound x 16 ltac:(lia)); lia
        end).
  rewrite !byte_of_two_digits.
  replace (n / 16 / 16 / 16 / 16 / 16 / 16) with (n / 16777216)
    by (rewrite !Z.div_div by lia; reflexivity).
  replace (n / 16 / 16 / 16 / 16) with (n / 65536)
    by (rewrite !Z.div_div by lia; reflexivity).
  replace (n / 16 / 16) with (n / 256)
    by (rewrite !Z.div_div by lia; reflexivity).
  destruct (fromhex cmd_hex) as [r | e |]; reflexivity.
Qed.

(** X6.  For a serial number below 2{^32} the request frame is the four bytes
    of the number, most significant first, then the bytes of the command,
    then the two checksum bytes of all that precedes; the four bytes give the
    number back.  So a frame for a one-byte command has seven bytes. *)
Theorem request_frame_is_big_endian_address :
  forall (n : Z) (cmd_hex : string) (cmd : bytes),
    0 <= n < 4294967296 ->
    fromhex cmd_hex = Ok cmd ->
    exists (a0 a1 a2 a3 : byte) (crc : bytes),
      build_frame (format_08X n) cmd_hex =
        Ok ([a0; a1; a2; a3] ++ cmd ++ crc)
      /\ crc16_modbus ([a0; a1; a2; a3] ++ cmd) = Ok crc
      /\ length crc = 2%nat
      /\ 16777216 * byte_val a0 + 65536 * byte_val a1
         + 256 * byte_val a2 + byte_val a3 = n.
Proof.
  intros n cmd_hex cmd Hn Hc.
  exists (byte_of_Z (n / 16777216)), (byte_of_Z (n / 65536)),
         (byte_of_Z (n / 256)), (byte_of_Z n).
  exists (CrcSpec.checksum
            ([byte_of_Z (n / 16777216); byte_of_Z (n / 65536);
              byte_of_Z (n / 256); byte_of_Z n] ++ cmd)).
  split; [| split; [apply crc16_modbus_checksum | split; [reflexivity |]]].
  - unfold build_frame.
    rewrite (format_08X_fixed n Hn), fromhex_fixed_address, Hc. cbn [bind].
    rewrite crc16_modbus_checksum. reflexivity.
  - rewrite !byte_val_of_Z.
    pose proof (Z.rem_mul_r n 256 16777216 ltac:(lia) ltac:(lia)) as E0.
    pose proof (Z.rem_mul_r (n / 256) 256 65536 ltac:(lia) ltac:(lia)) as E1.
    pose proof (Z.rem_mul_r (n / 65536) 256 256 ltac:(lia) ltac:(lia)) as E2.
    change (256 * 16777216) with 4294967296 in E0.
    change (256 * 65536) with 16777216 in E1.
    change (256 * 256) with 65536 in E2.
    replace (n / 256 / 256) with (n / 65536) in E1
      by (rewrite Z.div_div by lia; reflexivity).
    replace (n / 65536 / 256) with (n / 16777216) in E2
      by (rewrite Z.div_div by lia; reflexivity).
    rewrite (Z.mod_small n 4294967296) in E0 by lia.
    assert ((n / 16777216) mod 256 = n / 16777216) as E3.
    { apply Z.mod_small. split; [apply Z.div_pos; lia |].
      apply Z.div_lt_upper_bound; lia. }
    lia.
Qed.

Lemma request_frame_is_big_endian_address_witness :
  exists (a0 a1 a2 a3 : byte) (crc : bytes),
    build_frame (format_08X 548973) "63" =
      Ok ([a0; a1; a2; a3] ++ [x63] ++ crc)
    /\ crc16_modbus ([a0; a1; a2; a3] ++ [x63]) = Ok crc
    /\ length crc = 2%nat
    /\ 16777216 * byte_val a0 + 65536 * byte_val a1
       + 256 * byte_val a2 + byte_val a3 = 548973.
Proof.
  apply (request_frame_is_big_endian_address 548973 "63" [x63]).
  - lia.
  - vm_compute. reflexivity.
Defined.

(** ** The poll loop: what it prints and what it sends *)

Lemma digit_val_range (c : ascii) (d : Z) : digit_val c = Some d -> 0 <= d <= 9.
Proof.
  unfold digit_val. intros H.
  destruct ((48 <=? Z.of_nat (nat_of_ascii c))
            && (Z.of_nat (nat_of_ascii c) <=? 57)) eqn:E; [| discriminate].
  apply andb_true_iff in E. destruct E as [E1 E2].
  apply Z.leb_le in E1, E2. inversion H. lia.
Qed.

(** A serial of six digits is a number below a million. *)
Lemma six_digits_int (s : string) :
  six_digits s = true -> exists n : Z, Py.int s = Ok n /\ 0 <= n < 1000000.
Proof.
  unfold six_digits. intros H. apply andb_true_iff in H. destruct H as [Hd Hl].
  destruct s as [| c1 [| c2 [| c3 [| c4 [| c5 [| c6 [| c7 s]]]]]]];
    try discriminate.
  unfold Text.isdigit in Hd. cbn [Text.all_digits] in Hd.
  destruct (digit_val c1) as [d1 |] eqn:E1; [| discriminate].
  destruct (digit_val c2) as [d2 |] eqn:E2; [| discriminate].
  destruct (digit_val c3) as [d3 |] eqn:E3; [| discriminate].
  destruct (digit_val c4) as [d4 |] eqn:E4; [| discriminate].
  destruct (digit_val c5) as [d5 |] eqn:E5; [| discriminate].
  destruct (digit_val c6) as [d6 |] eqn:E6; [| discriminate].
  apply digit_val_range in E1 as R1. apply digit_val_range in E2 as R2.
  apply digit_val_range in E3 as R3. apply digit_val_range in E4 as R4.
  apply digit_val_range in E5 as R5. apply digit_val_range in E6 as R6.
  eexists. split.
  - unfold Py.int. cbn [int_digits]. rewrite E1, E2, E3, E4, E5, E6. reflexivity.
  - lia.
Qed.

Lemma build_frame_address (n : Z) (cmd_hex : string) (cmd : bytes) :
  0 <= n < 4294967296 ->
  fromhex cmd_hex = Ok cmd ->
  exists f : bytes,
    build_frame (format_08X n) cmd_hex = Ok f
    /\ length f = (6 + length cmd)%nat
    /\ rejected (Some f) = Ok false.
Proof.
  intros Hn Hc. unfold build_frame.
  rewrite (format_08X_fixed n Hn), fromhex_fixed_address, Hc. cbn [bind].
  rewrite crc16_modbus_checksum. cbn [bind].
  eexists. split; [reflexivity |]. split.
  - rewrite length_app. simpl. lia.
  - apply accepted_own_checksum.
Qed.

Section PollInvariants.

Variables (env : Env) (retry : nat) (port : Z).

Lemma send_frame_facts (addr_hex cmd_hex : string) (frame : bytes)
      (w w' : World) (out : res (option bytes)) :
  build_frame addr_hex cmd_hex = Ok frame ->
  send_frame env retry addr_hex cmd_hex w = (out, w') ->
  stdout w' = stdout w
  /\ (exists k : nat,
        (k <= retry)%nat /\ sends w' = (sends w + k)%nat
        /\ wire w' = wire w ++ repeat frame k)
  /\ match out with
     | Ok _ => True
     | Raise e => e = OSError
     | Spin => False
     end.
Proof.
  intros B E. rewrite (send_frame_attempts _ _ _ _ _ _ B) in E.
  apply attempts_facts in E.
  destruct E as (Ho & _ & k & Hk & Hs & Hw & Hout).
  split; [exact Ho |]. split; [exists k; auto |].
  destruct out as [[r |] | e |]; try exact I; [apply Hout | exact Hout].
Qed.

Lemma parse_63_raises (p : bytes) (e : exn) :
  parse_63 p = Raise e -> e = ValueError.
Proof.
  rewrite parse_63_fields, !bcd_to_int_cases.
  destruct (forallb BcdSpec.decimal (firstn 2 p));
    [| intros H; cbn [bind] in H; congruence].
  destruct (forallb BcdSpec.decimal (firstn 2 (skipn 2 p)));
    [| intros H; cbn [bind] in H; congruence].
  destruct (forallb BcdSpec.decimal (firstn 3 (skipn 4 p)));
    intros H; cbn [bind] in H; congruence.
Qed.

Lemma parse_63_spins (p : bytes) : parse_63 p <> Spin.
Proof.
  rewrite parse_63_fields, !bcd_to_int_cases.
  destruct (forallb BcdSpec.decimal (firstn 2 p)); [| discriminate].
  destruct (forallb BcdSpec.decimal (firstn 2 (skipn 2 p))); [| discriminate].
  destruct (forallb BcdSpec.decimal (firstn 3 (skipn 4 p))); discriminate.
Qed.

Lemma parse_27_raises (p : bytes) (e : exn) :
  parse_27 p = Raise e -> e = ValueError.
Proof.
  rewrite parse_27_fields, !bcd_to_int_cases.
  destruct (forallb BcdSpec.decimal (firstn 4 p));
    [| intros H; cbn [bind] in H; congruence].
  destruct (forallb BcdSpec.decimal (firstn 4 (skipn 4 p)));
    intros H; cbn [bind] in H; congruence.
Qed.

Lemma parse_27_spins (p : bytes) : parse_27 p <> Spin.
Proof.
  rewrite parse_27_fields, !bcd_to_int_cases.
  destruct (forallb BcdSpec.decimal (firstn 4 p)); [| discriminate].
  destruct (forallb BcdSpec.decimal (firstn 4 (skipn 4 p))); discriminate.
Qed.

(** What polling one meter leaves behind. *)
Lemma poll_serial_facts (serial : string) (w w' : World) (out : res unit) :
  six_digits serial = true ->
  poll_serial env retry port serial w = (out, w') ->
  exists (n : Z) (f63 f27 : bytes) (k1 k2 : nat),
    Py.int serial = Ok n
    /\ build_frame (format_08X n) "63" = Ok f63
    /\ build_frame (format_08X n) "27" = Ok f27
    /\ length f63 = 7%nat /\ length f27 = 7%nat
    /\ rejected (Some f63) = Ok false /\ rejected (Some f27) = Ok false
    /\ (k1 <= retry)%nat /\ (k2 <= retry)%nat
    /\ wire w' = wire w ++ repeat f63 k1 ++ repeat f27 k2
    /\ sends w' = (sends w + (k1 + k2))%nat
    /\ match out with
       | Ok _ =>
           exists l : line,
             stdout w' = stdout w ++ [l] /\ line_key l = (port, serial)
       | Raise e => stdout w' = stdout w /\ (e = ValueError \/ e = OSError)
       | Spin => False
       end.
Proof.
  intros Hs E.
  destruct (six_digits_int _ Hs) as (n & Hn & Rn).
  destruct (build_frame_address n "63" [x63] ltac:(lia) eq_refl)
    as (f63 & B63 & L63 & A63).
  destruct (build_frame_address n "27" [x27] ltac:(lia) eq_refl)
    as (f27 & B27 & L27 & A27).
  exists n, f63, f27.
  rewrite (poll_serial_primary _ _ _ _ _ Hn) in E.
  destruct (send_frame env retry (format_08X n) "63" w) as [o63 w1] eqn:E63.
  destruct (send_frame_facts _ _ _ _ _ _ B63 E63)
    as (So1 & (k1 & Hk1 & Ss1 & Sw1) & Sout1).
  assert (forall (v : World) (l : line),
             wire (with_line v l) = wire v /\ sends (with_line v l) = sends v
             /\ stdout (with_line v l) = stdout v ++ [l]) as WL
    by (intros; repeat split).
  destruct o63 as [r63 | e |].
  2:{ inversion E; subst. exists k1, 0%nat. simpl. rewrite app_nil_r.
      repeat split; try assumption; try lia. right. reflexivity. }
  2:{ contradiction. }
  destruct (rejected_total r63) as (b63 & R63). rewrite R63 in E.
  destruct b63.
  { inversion E; subst. exists k1, 0%nat. simpl. rewrite app_nil_r.
    repeat split; try assumption; try lia.
    exists (NoAnswer port serial). rewrite So1. split; reflexivity. }
  destruct (parse_63 (payload r63)) as [[[U A] P] | e |] eqn:D63.
  2:{ inversion E; subst. exists k1, 0%nat. simpl. rewrite app_nil_r.
      repeat split; try assumption; try lia.
      left. apply (parse_63_raises _ _ D63). }
  2:{ exfalso. exact (parse_63_spins _ D63). }
  destruct (send_frame env retry (format_08X n) "27" w1) as [o27 w2] eqn:E27.
  destruct (send_frame_facts _ _ _ _ _ _ B27 E27)
    as (So2 & (k2 & Hk2 & Ss2 & Sw2) & Sout2).
  exists k1, k2.
  assert (wire w2 = wire w ++ repeat f63 k1 ++ repeat f27 k2) as Hwire
    by (rewrite Sw2, Sw1, app_assoc; reflexivity).
  assert (sends w2 = (sends w + (k1 + k2))%nat) as Hsends by lia.
  assert (stdout w2 = stdout w) as Hout by congruence.
  destruct o27 as [r27 | e |].
  2:{ inversion E; subst.
      repeat split; try assumption; try lia. right. reflexivity. }
  2:{ contradiction. }
  destruct (rejected_total r27) as (b27 & R27). rewrite R27 in E.
  destruct b27.
  { inversion E; subst.
    repeat split; try assumption; try lia.
    exists (Partial port serial U A P). simpl. rewrite Hout.
    split; reflexivity. }
  destruct (parse_27 (payload r27)) as [[T1 T2] | e |] eqn:D27.
  - inversion E; subst.
    repeat split; try assumption; try lia.
    exists (Complete port serial U A P T1 T2). simpl. rewrite Hout.
    split; reflexivity.
  - inversion E; subst.
    repeat split; try assumption; try lia.
    left. apply (parse_27_raises _ _ D27).
  - exfalso. exact (parse_27_spins _ D27).
Qed.

End PollInvariants.

Lemma poll_serials_facts (env : Env) (retry : nat) (port : Z) :
  forall (serials : list string) (w w' : World) (out : res unit),
    forallb six_digits serials = true ->
    poll_serials env retry port serials w = (out, w') ->
    exists (lines : list line) (frames : list bytes),
      stdout w' = stdout w ++ lines
      /\ wire w' = wire w ++ frames
      /\ sends w' = (sends w + length frames)%nat
      /\ (length frames <= 2 * retry * length serials)%nat
      /\ Forall (fun f => length f = 7%nat /\ rejected (Some f) = Ok false
                          /\ is_request serials f) frames
      /\ match out with
         | Ok _ => map line_key lines = map (pair port) serials
         | Raise e =>
             (e = ValueError \/ e = OSError)
             /\ exists k : nat,
                  (k < length serials)%nat
                  /\ map line_key lines = map (pair port) (firstn k serials)
         | Spin => False
         end.
Proof.
  induction serials as [| serial rest IH]; intros w w' out Hs E.
  - simpl in E. unfold ret in E. inversion E; subst.
    exists [], []. rewrite !app_nil_r. simpl.
    repeat split; try lia. constructor.
  - cbn [forallb] in Hs. apply andb_true_iff in Hs. destruct Hs as [Hs Hr].
    cbn [poll_serials] in E. unfold bindM in E.
    destruct (poll_serial env retry port serial w) as [o1 w1] eqn:E1.
    destruct (poll_serial_facts _ _ _ _ _ _ _ Hs E1)
      as (n & f63 & f27 & k1 & k2 & Hn & B63 & B27 & L63 & L27 & A63 & A27
          & Hk1 & Hk2 & Hw & Hsd & Hout).
    assert (Forall (fun f => length f = 7%nat /\ rejected (Some f) = Ok false
                             /\ is_request (serial :: rest) f)
                   (repeat f63 k1 ++ repeat f27 k2)) as Hreq.
    { apply Forall_app. split; apply Forall_forall; intros f Hf;
        apply repeat_spec in Hf; subst f;
        (split; [assumption |]); (split; [assumption |]);
        exists serial, n; (split; [left; reflexivity |]);
        (split; [exact Hn |]); [left | right]; assumption. }
    assert (length (repeat f63 k1 ++ repeat f27 k2) = (k1 + k2)%nat) as Hlen
      by (rewrite length_app, !repeat_length; reflexivity).
    destruct o1 as [[] | e |].
    + destruct (IH _ _ _ Hr E)
        as (lines & frames & Io & Iw & Is & Il & If & Iout).
      destruct Hout as (l & Ho & Hkey).
      exists (l :: lines), ((repeat f63 k1 ++ repeat f27 k2) ++ frames).
      split; [rewrite Io, Ho, <- app_assoc; reflexivity |].
      split; [rewrite Iw, Hw, !app_assoc; reflexivity |].
      split; [rewrite Is, Hsd, length_app, Hlen; lia |].
      split.
      { rewrite length_app, Hlen. cbn [length].
        rewrite Nat.mul_succ_r. lia. }
      split.
      { apply Forall_app. split; [exact Hreq |].
        eapply Forall_impl; [| exact If].
        intros f (Hf7 & Hfa & serial' & n' & Hin & Hn' & Hb).
        split; [exact Hf7 |]. split; [exact Hfa |].
        exists serial', n'. split; [right; exact Hin | split; assumption]. }
      destruct out as [[] | e |].
      * cbn [map]. rewrite Hkey, Iout. reflexivity.
      * destruct Iout as (He & k & Hk & Hmap). split; [exact He |].
        exists (S k). split; [simpl; lia |].
        cbn [map firstn]. rewrite Hkey, Hmap. reflexivity.
      * exact Iout.
    + inversion E; subst. destruct Hout as (Ho & He).
      exists [], (repeat f63 k1 ++ repeat f27 k2).
      split; [rewrite app_nil_r; exact Ho |].
      split; [exact Hw |].
      split; [rewrite Hlen; exact Hsd |].
      split.
      { rewrite Hlen. cbn [length]. rewrite Nat.mul_succ_r. lia. }
      split; [exact Hreq |].
      split; [exact He |]. exists 0%nat. split; [simpl; lia | reflexivity].
    + contradiction.
Qed.

(** X7.  With serials of six digits each, the loop over the meters of a port
    prints one line per meter, in the order of the serials, each carrying the
    port and the serial.  The only exceptions that can leave it are
    [ValueError] and [OSError], and then the lines printed are those of the
    meters before the one that failed, which itself gets none. *)
Theorem poll_prints_one_line_per_meter :
  forall (env : Env) (retry : nat) (port : Z) (serials : list string)
         (w w' : World) (out : res unit),
    forallb six_digits serials = true ->
    poll_serials env retry port serials w = (out, w') ->
    exists lines : list line,
      stdout w' = stdout w ++ lines
      /\ match out with
         | Ok _ => map line_key lines = map (pair port) serials
         | Raise e =>
             (e = ValueError \/ e = OSError)
             /\ exists k : nat,
                  (k < length serials)%nat
                  /\ map line_key lines = map (pair port) (firstn k serials)
         | Spin => False
         end.
Proof.
  intros env retry port serials w w' out Hs E.
  destruct (poll_serials_facts _ _ _ _ _ _ _ Hs E)
    as (lines & frames & Ho & _ & _ & _ & _ & Hout).
  exists lines. split; assumption.
Qed.

Lemma poll_prints_one_line_per_meter_witness :
  exists lines : list line,
    [Partial 20003 "548973" 23.0%float 1.0%float 500;
     Complete 20003 "548974" 23.0%float 1.0%float 500 123.45%float 678.9%float]
      = [] ++ lines
    /\ map line_key lines =
         map (pair 20003) ["548973"; "548974"]%string.
Proof.
  refine (poll_prints_one_line_per_meter
            Scenario.silent_on_energy RETRY 20003 ["548973"; "548974"]%string
            start
            {| sends := 4; ticks := 8; recvs := 4;
               wire := [[x00; x08; x60; x6d; x63; x4a; xc7];
                        [x00; x08; x60; x6d; x27; x4a; xf4];
                        [x00; x08; x60; x6e; x63; x4a; x37];
                        [x00; x08; x60; x6e; x27; x4a; x04]];
               stdout :=
                 [Partial 20003 "548973" 23.0%float 1.0%float 500;
                  Complete 20003 "548974" 23.0%float 1.0%float 500
                           123.45%float 678.9%float] |}
            (Ok tt) _ _);
    vm_compute; reflexivity.
Defined.

(** X8.  With serials of six digits each, everything the loop over the
    meters of a port hands to [sendall] is a seven-byte frame that carries
    its own checksum and is the measurement or the energy request to one of
    the serials; and it hands over at most two frames per attempt and
    meter. *)
Theorem poll_sends_only_requests :
  forall (env : Env) (retry : nat) (port : Z) (serials : list string)
         (w w' : World) (out : res unit),
    forallb six_digits serials = true ->
    poll_serials env retry port serials w = (out, w') ->
    exists frames : list bytes,
      wire w' = wire w ++ frames
      /\ sends w' = (sends w + length frames)%nat
      /\ (length frames <= 2 * retry * length serials)%nat
      /\ Forall (fun f => length f = 7%nat /\ rejected (Some f) = Ok false
                          /\ is_request serials f) frames.
Proof.
  intros env retry port serials w w' out Hs E.
  destruct (poll_serials_facts _ _ _ _ _ _ _ Hs E)
    as (lines & frames & _ & Hw & Hsd & Hl & Hf & _).
  exists frames. repeat split; assumption.
Qed.

Lemma poll_sends_only_requests_witness :
  exists frames : list bytes,
    [[x00; x08; x60; x6d; x63; x4a; xc7]; [x00; x08; x60; x6e; x63; x4a; x37]]
      = [] ++ frames
    /\ 2%nat = (0 + length frames)%nat
    /\ (length frames <= 2 * 1 * 2)%nat
    /\ Forall (fun f => length f = 7%nat /\ rejected (Some f) = Ok false
                        /\ is_request ["548973"; "548974"]%string f) frames.
Proof.
  refine (poll_sends_only_requests
            Scenario.silent 1 20003 ["548973"; "548974"]%string
            start
            {| sends := 2; ticks := 4; recvs := 2;
               wire := [[x00; x08; x60; x6d; x63; x4a; xc7];
                        [x00; x08; x60; x6e; x63; x4a; x37]];
               stdout := [NoAnswer 20003 "548973"; NoAnswer 20003 "548974"] |}
            (Ok tt) _ _);
    vm_compute; reflexivity.
Defined.

(** ** The plan loader *)
















(** ** The run *)










(** ** The cost of an exchange *)





(** ** The echo *)

Lemma payload_of_reply (echo body crc : bytes) :
  length echo = 5%nat -> length crc = 2%nat ->
  payload (Some (echo ++ body ++ crc)) = body.
Proof.
  intros He Hc. unfold payload, bytes_of, slice, index.
  change (5 <? 0) with false. change (-2 <? 0) with true. cbv iota.
  rewrite !length_app, He, Hc.
  rewrite Z.min_l by lia. rewrite Z.max_l by lia.
  change (Z.to_nat 5) with 5%nat.
  rewrite skipn_app, He. rewrite skipn_all2 by lia.
  change (5 - 5)%nat with 0%nat. cbn [skipn app].
  replace (Z.to_nat (Z.of_nat (5 + (length body + 2)) + -2 - 5))
    with (length body) by lia.
  rewrite firstn_app, Nat.sub_diag, firstn_all. cbn [firstn].
  apply app_nil_r.
Qed.

(** X14.  The first five bytes of a response are not examined.  Whatever
    five bytes stand there, a response that ends with the checksum of what
    precedes is accepted, and the payload handed to the decoders is what
    lies between those five bytes and the checksum; so two responses with
    different echoes and one payload decode alike. *)
Theorem echo_is_not_examined :
  forall echo echo' body : bytes,
    length echo = 5%nat -> length echo' = 5%nat ->
    exists crc crc' : bytes,
      crc16_modbus (echo ++ body) = Ok crc
      /\ crc16_modbus (echo' ++ body) = Ok crc'
      /\ rejected (Some (echo ++ body ++ crc)) = Ok false
      /\ rejected (Some (echo' ++ body ++ crc')) = Ok false
      /\ payload (Some (echo ++ body ++ crc)) = body
      /\ parse_63 (payload (Some (echo ++ body ++ crc))) =
           parse_63 (payload (Some (echo' ++ body ++ crc')))
      /\ parse_27 (payload (Some (echo ++ body ++ crc))) =
           parse_27 (payload (Some (echo' ++ body ++ crc'))).
Proof.
  intros echo echo' body He He'.
  exists (CrcSpec.checksum (echo ++ body)), (CrcSpec.checksum (echo' ++ body)).
  split; [apply crc16_modbus_checksum |].
  split; [apply crc16_modbus_checksum |].
  rewrite !(app_assoc _ body).
  split; [apply accepted_own_checksum |].
  split; [apply accepted_own_checksum |].
  rewrite <- !(app_assoc _ body).
  rewrite !payload_of_reply by (assumption || reflexivity).
  repeat split.
Qed.

Lemma echo_is_not_examined_witness :
  exists crc crc' : bytes,
    crc16_modbus (Scenario.echo63 ++ Scenario.body63) = Ok crc
    /\ crc16_modbus (Scenario.next27 ++ Scenario.body63) = Ok crc'
    /\ rejected (Some (Scenario.echo63 ++ Scenario.body63 ++ crc)) = Ok false
    /\ rejected (Some (Scenario.next27 ++ Scenario.body63 ++ crc')) = Ok false
    /\ payload (Some (Scenario.echo63 ++ Scenario.body63 ++ crc)) =
         Scenario.body63
    /\ parse_63 (payload (Some (Scenario.echo63 ++ Scenario.body63 ++ crc))) =
         parse_63 (payload (Some (Scenario.next27 ++ Scenario.body63 ++ crc')))
    /\ parse_27 (payload (Some (Scenario.echo63 ++ Scenario.body63 ++ crc))) =
         parse_27 (payload (Some (Scenario.next27 ++ Scenario.body63 ++ crc'))).
Proof.
  apply (echo_is_not_examined Scenario.echo63 Scenario.next27 Scenario.body63);
    reflexivity.
Defined.
